(** * BinanceArb: a shallow embedding of the basis-trading bot

    The development follows [src/modules/BinanceArb.py], class
    [BinanceArbBot].  The Python methods become functions in a small monad
    [Py] that threads the state of the outside world (the clock and the
    number of requests already sent to the exchange), collects the
    observable events in the order they happen (requests to the exchange
    with their answers, log records, prints, sleeps, alerts) and propagates
    Python exceptions.

    Conventions of the model:
    - a Python [float] is the rational number it denotes ([Qc], canonical
      rationals with Leibniz equality); the arithmetic is exact, the
      rounding of IEEE doubles, infinities and NaN are outside the model;
      a true division by zero raises [ZeroDivisionError] as in Python;
    - the exchange ([self.exchange], a ccxt handle) is an oracle: its answer
      to the n-th request, either a payload or an exception;
    - the text of a log record is kept as the template of the source and
      the list of the values it interpolates;
    - [while True] loops take a fuel argument; running out of fuel is the
      distinct outcome [Diverge], never confused with a normal return. *)

From Stdlib Require Import ZArith QArith Qcanon Qround List.
From stdpp Require Import gmap strings list.

Local Open Scope Z_scope.

(** ** Numbers *)

(** [int(x)] on a float: truncation toward zero. *)
Definition py_int (x : Qc) : Z := Z.quot (Qnum x) (Zpos (Qden x)).

(** [math.floor], used to state properties; the source only uses [int]. *)
Definition floorQc (x : Qc) : Z := Qfloor x.

Definition Qc_ltb (x y : Qc) : bool :=
  match Qccompare x y with Lt => true | _ => false end.

Definition Qc_eqb (x y : Qc) : bool :=
  match Qccompare x y with Eq => true | _ => false end.

(** [round(x, ndigits)] on a float: to the nearest multiple of
    [10 ** -ndigits], ties to the even one. *)
Definition round_half_even (x : Qc) : Z :=
  let f := floorQc x in
  let d := (x - Qc_of_Z f)%Qc in
  let half := Q2Qc (1 # 2) in
  if Qc_ltb d half then f
  else if Qc_ltb half d then f + 1
  else if Z.even f then f else f + 1.

Definition py_round (x : Qc) (ndigits : Z) : Qc :=
  let scale := Q2Qc (Qpower (inject_Z 10) ndigits) in
  (Qc_of_Z (round_half_even (x * scale)%Qc) / scale)%Qc.

(** ** Exceptions *)

Inductive exn :=
| ValueError
| TypeError
| KeyError
| ZeroDivisionError
| GatewayError        (* any failure of a request: network, auth, rejection *)
| SystemExit          (* raised by [exit()] *)
| KeyboardInterrupt.

(** [isinstance(e, Exception)]: what [except Exception] catches.
    [SystemExit] and [KeyboardInterrupt] derive from [BaseException] only. *)
Definition is_Exception (e : exn) : bool :=
  match e with
  | SystemExit | KeyboardInterrupt => false
  | _ => true
  end.

(** ** Values *)

(** What the exchange answers. *)
Inductive Payload :=
| BookTicker (askPrice bidPrice : Qc)      (* best quotes of one market *)
| BalanceInfo (free : gmap string Qc)      (* balance[c]['free'] per asset *)
| OrderInfo (orderId : Z) (average : option Qc)
| RawInfo (tranId : Z).

Inductive pyval :=
| PNone
| PStr (s : string)
| PInt (z : Z)
| PFloat (q : Qc)
| PInfo (p : Payload).

(** [v == 'literal'] *)
Definition py_eq_str (v : pyval) (s : string) : bool :=
  match v with
  | PStr s' => bool_decide (s' = s)
  | _ => false
  end.

(** A Python dict with string keys. *)
Abbreviation dict := (gmap string pyval).

Inductive Response :=
| Fails (e : exn)
| Answers (p : Payload).

Inductive Request :=
| create_limit_buy_order (symbol amount price : pyval)
| create_limit_sell_order (symbol amount price : pyval)
| dapiPrivatePostOrder (params : dict)
| sapiPostAssetTransfer (params : dict)
| fetch_balance
| publicGetTickerBookTicker (symbol : string)
| dapiPublicGetTickerBookTicker (symbol : string).

Inductive Level := Debug | Info | Warning | Error | Critical.

Inductive Event :=
| EvCall (req : Request) (resp : Response)    (* a request and its answer *)
| EvLog (lvl : Level) (template : string) (args : list pyval)
| EvPrint (v : pyval)                          (* print(v) *)
| EvPrintParams (params : dict)               (* print('Function parameters:', params) *)
| EvSleep (seconds : Z)
| EvAlert (act_name : string) (params : dict) (* send_dd_msg *)
| EvAttempt (act_name : string) (params : dict) (ok : bool).
(** [EvAttempt] is a ghost event: it marks one evaluation of
    [func( **params)] inside [retry_wrapper], with the dict that was passed
    and whether the call returned. *)

(** ** The world and the monad *)

Record World := {
  requests : nat;     (* requests sent to the exchange so far *)
  clock : Z;          (* wall clock, in milliseconds *)
}.

Inductive Res (A : Type) :=
| Val (a : A)
| Exc (e : exn)
| Diverge.
Arguments Val {A} a.
Arguments Exc {A} e.
Arguments Diverge {A}.

Definition Py (A : Type) : Type := World -> Res A * World * list Event.

Definition ret {A} (a : A) : Py A := fun w => (Val a, w, []).

Definition bind {A B} (m : Py A) (k : A -> Py B) : Py B := fun w =>
  let '(r, w1, ev1) := m w in
  match r with
  | Val a => let '(r2, w2, ev2) := k a w1 in (r2, w2, ev1 ++ ev2)
  | Exc e => (Exc e, w1, ev1)
  | Diverge => (Diverge, w1, ev1)
  end.

#[global] Instance Py_ret : MRet Py := @ret.
#[global] Instance Py_bind : MBind Py := fun A B k m => bind m k.

Definition raise {A} (e : exn) : Py A := fun w => (Exc e, w, []).
Definition out_of_fuel {A} : Py A := fun w => (Diverge, w, []).
Definition emit (e : Event) : Py unit := fun w => (Val tt, w, [e]).

Definition log (lvl : Level) (template : string) (args : list pyval) : Py unit :=
  emit (EvLog lvl template args).
Definition print (v : pyval) : Py unit := emit (EvPrint v).
Definition send_dd_msg (act_name : string) (params : dict) : Py unit :=
  emit (EvAlert act_name params).
Definition exit {A} : Py A := raise SystemExit.

(** [time.time()], in seconds. *)
Definition time_time (w : World) : Qc := Q2Qc (clock w # 1000).

(** The world [seconds] later. *)
Definition later (seconds : Z) (w : World) : World :=
  {| requests := requests w; clock := clock w + 1000 * seconds |}.

(** [time.sleep(seconds)]; a negative argument raises [ValueError]. *)
Definition sleep (seconds : Z) : Py unit := fun w =>
  if seconds <? 0 then (Exc ValueError, w, [])
  else (Val tt, later seconds w, [EvSleep seconds]).

(** [try: body except Exception as e: handler e] *)
Definition try_except {A} (body : Py A) (handler : exn -> Py A) : Py A := fun w =>
  let '(r, w1, ev1) := body w in
  match r with
  | Exc e =>
      if is_Exception e
      then let '(r2, w2, ev2) := handler e w1 in (r2, w2, ev1 ++ ev2)
      else (Exc e, w1, ev1)
  | _ => (r, w1, ev1)
  end.

(** The outcome of a run that comes after the events [evs]. *)
Definition prepend {A} (evs : list Event) (x : Res A * World * list Event)
    : Res A * World * list Event :=
  (x.1.1, x.1.2, evs ++ x.2).

Definition result {A} (x : Res A * World * list Event) : Res A := x.1.1.
Definition world {A} (x : Res A * World * list Event) : World := x.1.2.
Definition events {A} (x : Res A * World * list Event) : list Event := x.2.

(** [a / b] on floats. *)
Definition truediv (a b : Qc) : Py Qc :=
  if Qc_eqb b 0 then raise ZeroDivisionError else ret (a / b)%Qc.

(** ** The bot *)

Record BinanceArbBot := {
  exchange : nat -> Response;
  coin : string;
  future_date : string;
  coin_precision : Z;
  slippage : Qc;
  spot_fee_rate : Qc;
  contract_fee_rate : Qc;
  multipler : gmap string Qc;
  amount : Qc;
  num_maximum : Z;
  threshold : Qc;
  max_trial : Z;
}.

Definition spot_symbol_type1 (self : BinanceArbBot) : string := coin self +:+ "USDT".
Definition spot_symbol_type2 (self : BinanceArbBot) : string := coin self +:+ "/USDT".
Definition future_symbol_type1 (self : BinanceArbBot) : string :=
  coin self +:+ "USD_" +:+ future_date self.

(** One request to the exchange: the oracle answers by the request's rank. *)
Definition next_request (w : World) : World :=
  {| requests := S (requests w); clock := clock w |}.

Definition gateway (self : BinanceArbBot) (req : Request) : Py Payload := fun w =>
  let resp := exchange self (requests w) in
  match resp with
  | Fails e => (Exc e, next_request w, [EvCall req resp])
  | Answers p => (Val p, next_request w, [EvCall req resp])
  end.

(** ** retry_wrapper *)

(** Lines 45-46: the timestamp of the dict is reset when it has one, to
    [int(time.time()) * 1000].  [params] is a dict in every call of the
    source, and a dict here. *)
Definition reset_timestamp (params : dict) (w : World) : dict :=
  match params !! "timestamp" with
  | Some _ => <["timestamp" := PInt (py_int (time_time w) * 1000)]> params
  | None => params
  end.

(** The [except Exception] branch, lines 50-53. *)
Definition retry_handler (params : dict) (act_name : string) (sleep_seconds : Z)
    (e : exn) : Py unit :=
  emit (EvPrintParams params) ;;
  log Warning "{act_name} ({self.exchange.id}) FAIL | Retry after {sleep_seconds} seconds..."
      [PStr act_name; PInt sleep_seconds] ;;
  log Warning "traceback.format_exc()" [] ;;
  sleep sleep_seconds.

(** The [for _ in range(self.max_trial)] loop.  [Val (Some v)] is the
    [return result] inside the loop, [Val None] the loop running to its end.
    The dict is a mutable object shared with the caller: its final content
    is returned next to the outcome. *)
Fixpoint retry_attempts (trials : nat) (func : dict -> Py pyval) (params : dict)
    (act_name : string) (sleep_seconds : Z) (w : World)
    : Res (option pyval) * dict * World * list Event :=
  match trials with
  | O => (Val None, params, w, [])
  | S trials' =>
      let params1 := reset_timestamp params w in
      let '(r, w1, ev1) := func params1 w in
      match r with
      | Val v => (Val (Some v), params1, w1, ev1 ++ [EvAttempt act_name params1 true])
      | Diverge => (Diverge, params1, w1, ev1 ++ [EvAttempt act_name params1 false])
      | Exc e =>
          if is_Exception e then
            let '(r2, w2, ev2) := retry_handler params1 act_name sleep_seconds e w1 in
            match r2 with
            | Val _ =>
                let '(r3, params3, w3, ev3) :=
                  retry_attempts trials' func params1 act_name sleep_seconds w2 in
                (r3, params3, w3, ev1 ++ [EvAttempt act_name params1 false] ++ ev2 ++ ev3)
            | Exc e2 => (Exc e2, params1, w2, ev1 ++ [EvAttempt act_name params1 false] ++ ev2)
            | Diverge => (Diverge, params1, w2, ev1 ++ [EvAttempt act_name params1 false] ++ ev2)
            end
          else (Exc e, params1, w1, ev1 ++ [EvAttempt act_name params1 false])
      end
  end.

(** The [else] clause of the loop, lines 55-58. *)
Definition escalate (params : dict) (act_name : string) (is_exit : bool) : Py pyval :=
  log Critical "{act_name} FAIL too many times... Arbitrage STOPs!" [PStr act_name] ;;
  send_dd_msg act_name params ;;
  if is_exit then exit else ret PNone.

Definition retry_wrapper (self : BinanceArbBot) (func : dict -> Py pyval)
    (params : dict) (act_name : string) (sleep_seconds : Z) (is_exit : bool)
    (w : World) : Res pyval * dict * World * list Event :=
  let '(r, params1, w1, ev1) :=
    retry_attempts (Z.to_nat (max_trial self)) func params act_name sleep_seconds w in
  match r with
  | Val (Some v) => (Val v, params1, w1, ev1)
  | Val None =>
      let '(r2, w2, ev2) := escalate params1 act_name is_exit w1 in
      (r2, params1, w2, ev1 ++ ev2)
  | Exc e => (Exc e, params1, w1, ev1)
  | Diverge => (Diverge, params1, w1, ev1)
  end.

(** [self.retry_wrapper(func=..., params=..., act_name=...)] as the callers
    use it: default [sleep_seconds=1], [is_exit=True], the dict dropped. *)
Definition retry_call (self : BinanceArbBot) (func : dict -> Py pyval)
    (params : dict) (act_name : string) : Py pyval := fun w =>
  let '(r, _, w1, ev1) := retry_wrapper self func params act_name 1 true w in
  (r, w1, ev1).

(** ** Keyword arguments

    [func( **params)] binds the dict to the parameters of [func] by name: a
    missing required name or a key that is no parameter raises [TypeError]. *)
Definition kwargs_ok (required optional : list string) (params : dict) : bool :=
  forallb (fun k => bool_decide (is_Some (params !! k))) required
  && forallb (fun kv => bool_decide (kv.1 ∈ required ++ optional)) (map_to_list params).

Definition kwarg (params : dict) (name : string) (dflt : pyval) : pyval :=
  default dflt (params !! name).

(** ** Placing orders and transferring funds *)

Definition binance_spot_place_order (self : BinanceArbBot)
    (symbol direction price amount : pyval) : Py pyval :=
  order_info ←
    (if py_eq_str direction "long"
     then gateway self (create_limit_buy_order symbol amount price)
     else if py_eq_str direction "short"
     then gateway self (create_limit_sell_order symbol amount price)
     else raise ValueError);
  log Debug "spot orders ({self.exchange.id}) SUCCESS: {direction} > {symbol} > {amount} > {price}"
      [direction; symbol; amount; price] ;;
  log Debug "Order info: {str(order_info)}" [PInfo order_info] ;;
  ret (PInfo order_info).

(** [int(time.time() * 1000)] *)
Definition timestamp_ms : Py pyval := fun w =>
  (Val (PInt (py_int (time_time w * Qc_of_Z 1000)%Qc)), w, []).

(** Line 103 is [raise NotImplemented(...)]: [NotImplemented] is a constant,
    not an exception class, and calling it raises [TypeError]. *)
Definition binance_future_place_order (self : BinanceArbBot)
    (symbol direction price amount : pyval) : Py pyval :=
  side ←
    (if py_eq_str direction "open_short" then ret "SELL"
     else if py_eq_str direction "close_short" then ret "BUY"
     else raise TypeError);
  ts ← timestamp_ms;
  let params : dict :=
    <["timestamp" := ts]>
      (<["side" := PStr side]>
        (<["positionSide" := PStr "SHORT"]>
          (<["symbol" := symbol]>
            (<["type" := PStr "LIMIT"]>
              (<["price" := price]>
                (<["quantity" := amount]>
                  {["timeInForce" := PStr "GTC"]})))))) in
  order_info ← gateway self (dapiPrivatePostOrder params);
  log Debug "({self.exchange.id}) Future orders SUCCESS: {direction} > {symbol} > {amount} > {price}"
      [direction; symbol; amount; price] ;;
  log Debug "Order info: {str(order_info)}" [PInfo order_info] ;;
  ret (PInfo order_info).

Definition binance_account_transfer (self : BinanceArbBot)
    (currency amount from_account to_account : pyval) : Py pyval :=
  transfer_type ←
    (if py_eq_str from_account "spot" && py_eq_str to_account "coin-margin"
     then ret "MAIN_CMFUTURE"
     else if py_eq_str from_account "coin-margin" && py_eq_str to_account "spot"
     then ret "CMFUTURE_MAIN"
     else raise ValueError);
  ts ← timestamp_ms;
  let params : dict :=
    <["timestamp" := ts]>
      (<["type" := PStr transfer_type]>
        (<["asset" := currency]>
          {["amount" := amount]})) in
  transfer_info ← gateway self (sapiPostAssetTransfer params);
  log Debug "({self.exchange.id}) Transfer SUCCESS: {from_account} --> {to_account} > amount: {amount}"
      [from_account; to_account; amount] ;;
  log Debug "Transfer info: {str(transfer_info)}" [PInfo transfer_info] ;;
  ret (PInfo transfer_info).

(** The three bound methods as [retry_wrapper] calls them, [func( **params)]. *)
Definition spot_place_order_kw (self : BinanceArbBot) (params : dict) : Py pyval :=
  if kwargs_ok ["symbol"; "direction"; "price"; "amount"] [] params
  then binance_spot_place_order self
         (kwarg params "symbol" PNone) (kwarg params "direction" PNone)
         (kwarg params "price" PNone) (kwarg params "amount" PNone)
  else raise TypeError.

Definition future_place_order_kw (self : BinanceArbBot) (params : dict) : Py pyval :=
  if kwargs_ok ["symbol"; "direction"; "price"; "amount"] [] params
  then binance_future_place_order self
         (kwarg params "symbol" PNone) (kwarg params "direction" PNone)
         (kwarg params "price" PNone) (kwarg params "amount" PNone)
  else raise TypeError.

Definition account_transfer_kw (self : BinanceArbBot) (params : dict) : Py pyval :=
  if kwargs_ok ["currency"; "amount"] ["from_account"; "to_account"] params
  then binance_account_transfer self
         (kwarg params "currency" PNone) (kwarg params "amount" PNone)
         (kwarg params "from_account" (PStr "spot"))
         (kwarg params "to_account" (PStr "coin-margin"))
  else raise TypeError.

(** ** Reading the answers of the exchange *)

(** [ticker['askPrice']], [ticker['bidPrice']] followed by [float(...)]. *)
Definition askPrice_of (p : Payload) : Py Qc :=
  match p with BookTicker a _ => ret a | _ => raise KeyError end.
Definition bidPrice_of (p : Payload) : Py Qc :=
  match p with BookTicker _ b => ret b | _ => raise KeyError end.

(** [balance[asset]['free']] *)
Definition free_of (p : Payload) (asset : string) : Py Qc :=
  match p with
  | BalanceInfo free =>
      match free !! asset with Some x => ret x | None => raise KeyError end
  | _ => raise KeyError
  end.

(** [order_info['average']]; subscripting [None] raises [TypeError]. *)
Definition average_of (v : pyval) : Py pyval :=
  match v with
  | PInfo (OrderInfo _ (Some a)) => ret (PFloat a)
  | PInfo (OrderInfo _ None) => ret PNone
  | PInfo _ => raise KeyError
  | _ => raise TypeError
  end.

(** [self.multipler[self.coin]] *)
Definition multipler_of (self : BinanceArbBot) : Py Qc :=
  match multipler self !! coin self with
  | Some m => ret m
  | None => raise KeyError
  end.

(** ** open_position *)

(** Lines 170-173: contract count, its coin equivalent, the futures fee and
    the spot quantity to buy. *)
Definition open_sizing (self : BinanceArbBot) (coin_bid1 : Qc)
    : Py (Z * Qc * Qc * Qc) :=
  m ← multipler_of self;
  q ← truediv (amount self) m;
  let contract_num := py_int q in
  m ← multipler_of self;
  contract_coin_num ← truediv (Qc_of_Z contract_num * m)%Qc coin_bid1;
  let contract_fee := (contract_coin_num * contract_fee_rate self)%Qc in
  gross ← truediv contract_coin_num (1 - spot_fee_rate self)%Qc;
  let spot_amount := (gross + contract_fee)%Qc in
  ret (contract_num, contract_coin_num, contract_fee, spot_amount).

(** Lines 169-218, the [else] branch: one opening cycle. *)
Definition open_cycle (self : BinanceArbBot) (spot_ask1 coin_bid1 : Qc)
    (execute_num : Z) : Py Z :=
  log Debug "Price difference LARGER than threshold >>> Starting arbitrage..." [] ;;
  '(contract_num, contract_coin_num, contract_fee, spot_amount) ←
    open_sizing self coin_bid1;
  log Debug "Arbitrage starts >>> future cotract num {contract_num} > coin-margin num {contract_coin_num} > fee {contract_fee} > spot amount {spot_amount}"
      [PInt contract_num; PFloat contract_coin_num; PFloat contract_fee;
       PFloat spot_amount] ;;
  let price := (spot_ask1 * (1 + slippage self))%Qc in
  let params : dict :=
    <["symbol" := PStr (spot_symbol_type2 self)]>
      (<["direction" := PStr "long"]>
        (<["price" := PFloat price]>
          {["amount" := PFloat spot_amount]})) in
  spot_order_info ← retry_call self (spot_place_order_kw self) params "Long spot orders";
  let price := (coin_bid1 * (1 - slippage self))%Qc in
  let price := py_round price (coin_precision self) in
  let params : dict :=
    <["symbol" := PStr (future_symbol_type1 self)]>
      (<["direction" := PStr "open_short"]>
        (<["price" := PFloat price]>
          {["amount" := PInt contract_num]})) in
  future_order_info ←
    retry_call self (future_place_order_kw self) params "Short coin-margin orders";
  sleep 2 ;;
  balance ← gateway self fetch_balance;
  num ← free_of balance (coin self);
  log Debug "Amount to be transfered > {num}" [PFloat num] ;;
  let params : dict :=
    <["currency" := PStr (coin self)]>
      (<["amount" := PFloat num]>
        (<["from_account" := PStr "spot"]>
          {["to_account" := PStr "coin-margin"]})) in
  retry_call self (account_transfer_kw self) params "Transfer (SPOT --> COIN-M)" ;;
  let execute_num := execute_num + 1 in
  log Info "Number of opening executions: {execute_num}" [PInt execute_num] ;;
  average ← average_of spot_order_info;
  print average ;;
  print future_order_info ;;
  ret execute_num.

(** Lines 152-222: one pass of the [while True] loop, up to the final sleep.
    The text of the price record also shows an operator sign, computed for
    display only; it is left out of the values of the record. *)
Definition open_iteration (self : BinanceArbBot) (execute_num : Z) : Py Z :=
  ticker ← gateway self (publicGetTickerBookTicker (spot_symbol_type1 self));
  spot_ask1 ← askPrice_of ticker;
  ticker ← gateway self (dapiPublicGetTickerBookTicker (future_symbol_type1 self));
  coin_bid1 ← bidPrice_of ticker;
  q ← truediv coin_bid1 spot_ask1;
  let r := (q - 1)%Qc in
  log Info "Spot %.4f %s COIN-M %.4f -> Price Difference: %.4f%%"
      [PFloat spot_ask1; PFloat coin_bid1; PFloat (r * Qc_of_Z 100)%Qc] ;;
  execute_num ←
    (if Qc_ltb r (threshold self)
     then log Info "Price difference SMALLER than threshold >>> Retrying..." [] ;;
          ret execute_num
     else open_cycle self spot_ask1 coin_bid1 execute_num);
  sleep 2 ;;
  ret execute_num.

Fixpoint open_position_loop (self : BinanceArbBot) (fuel : nat) (execute_num : Z)
    : Py unit :=
  match fuel with
  | O => out_of_fuel
  | S fuel' =>
      execute_num ← open_iteration self execute_num;
      if num_maximum self <=? execute_num
      then log Info "Maximum execution number reached >>> Position opening stops." []
      else open_position_loop self fuel' execute_num
  end.

Definition open_position (self : BinanceArbBot) (fuel : nat) : Py unit :=
  open_position_loop self fuel 0.

(** ** close_position_utils and close_position *)

(** Lines 266-269. *)
Definition close_sizing (self : BinanceArbBot) (coin_bid1 : Qc)
    : Py (Z * Qc * Qc * Qc) :=
  let notional := (coin_bid1 * amount self)%Qc in
  m ← multipler_of self;
  q ← truediv notional m;
  let contract_num := py_int q in
  m ← multipler_of self;
  contract_coin_num ← truediv (Qc_of_Z contract_num * m)%Qc coin_bid1;
  let contract_fee := (contract_coin_num * contract_fee_rate self)%Qc in
  let spot_amount := (contract_coin_num - contract_fee)%Qc in
  ret (contract_num, contract_coin_num, contract_fee, spot_amount).

(** Lines 263-311, the [else] branch: one closing cycle.  [num] is the
    variable assigned at line 237, before the loop. *)
Definition close_cycle (self : BinanceArbBot) (num : Qc) (spot_ask1 coin_bid1 : Qc)
    (now_execute_num : Z) : Py Z :=
  log Debug "Price difference SMALLER than threshold >>> Stopping arbitrage..." [] ;;
  '(contract_num, contract_coin_num, contract_fee, spot_amount) ←
    close_sizing self coin_bid1;
  log Debug "Closing contract num {contract_num} > equivalent coin num {contract_coin_num} > contract fee {contract_fee} > spot selling amount {spot_amount}"
      [PInt contract_num; PFloat contract_coin_num; PFloat contract_fee;
       PFloat spot_amount] ;;
  let price := (coin_bid1 * (1 + slippage self))%Qc in
  let price := py_round price (coin_precision self) in
  let params : dict :=
    <["symbol" := PStr (future_symbol_type1 self)]>
      (<["direction" := PStr "close_short"]>
        (<["price" := PFloat price]>
          {["amount" := PInt contract_num]})) in
  future_order_info ←
    retry_call self (future_place_order_kw self) params "Close short coin-margin orders";
  let price := (spot_ask1 * (1 - slippage self))%Qc in
  let params : dict :=
    <["symbol" := PStr (spot_symbol_type2 self)]>
      (<["direction" := PStr "short"]>
        (<["price" := PFloat price]>
          {["amount" := PFloat spot_amount]})) in
  spot_order_info ← retry_call self (spot_place_order_kw self) params "Long spot orders";
  sleep 2 ;;
  let params : dict :=
    <["currency" := PStr (coin self)]>
      (<["amount" := PFloat num]>
        (<["from_account" := PStr "coin-margin"]>
          {["to_account" := PStr "spot"]})) in
  retry_call self (account_transfer_kw self) params "Transfer (COIN-M --> SPOT)" ;;
  let now_execute_num := now_execute_num + 1 in
  average ← average_of spot_order_info;
  print average ;;
  print future_order_info ;;
  ret now_execute_num.

(** Lines 247-316: one pass of the [while True] loop, up to the final sleep. *)
Definition close_iteration (self : BinanceArbBot) (num : Qc) (now_execute_num : Z)
    : Py Z :=
  ticker ← gateway self (publicGetTickerBookTicker (spot_symbol_type1 self));
  spot_ask1 ← bidPrice_of ticker;
  ticker ← gateway self (dapiPublicGetTickerBookTicker (future_symbol_type1 self));
  coin_bid1 ← askPrice_of ticker;
  q ← truediv coin_bid1 spot_ask1;
  let r := (q - 1)%Qc in
  log Info "Spot %.4f %s COIN-M %.4f -> Price Difference: %.4f%%"
      [PFloat spot_ask1; PFloat coin_bid1; PFloat (r * Qc_of_Z 100)%Qc] ;;
  now_execute_num ←
    (if Qc_ltb (threshold self) r
     then log Info "Price difference LARGER than threshold >>> Retrying..." [] ;;
          ret now_execute_num
     else close_cycle self num spot_ask1 coin_bid1 now_execute_num);
  log Info "Number of closing executions: {now_execute_num}" [PInt now_execute_num] ;;
  sleep 2 ;;
  ret now_execute_num.

Fixpoint close_loop (self : BinanceArbBot) (fuel : nat) (num : Qc)
    (now_execute_num : Z) : Py unit :=
  match fuel with
  | O => out_of_fuel
  | S fuel' =>
      now_execute_num ← close_iteration self num now_execute_num;
      if num_maximum self <=? now_execute_num
      then log Info "Maximum execution number reached >>> Position closing stops." [] ;;
           exit
      else close_loop self fuel' num now_execute_num
  end.

(** Lines 230-244 and the loop started with [now_execute_num = 0]. *)
Definition close_position_utils (self : BinanceArbBot) (fuel : nat) : Py unit :=
  balance ← gateway self fetch_balance;
  num ← free_of balance "USDT";
  log Info "Amount of USDT in spot account: {num}" [PFloat num] ;;
  balance ← gateway self fetch_balance;
  num ← free_of balance (coin self);
  log Info "Amount of {self.coin} in coin-margin account: {num}" [PFloat num] ;;
  (if Qc_ltb num (amount self)
   then log Error "Please ensure the coin-margin remaining balance is enough!" []
   else ret tt) ;;
  close_loop self fuel num 0.

(** Lines 323-330: the supervisor.  [rounds] bounds the passes of its
    [while True], [fuel] those of the loop inside each pass. *)
Fixpoint close_position (self : BinanceArbBot) (rounds fuel : nat) : Py unit :=
  match rounds with
  | O => out_of_fuel
  | S rounds' =>
      try_except (close_position_utils self fuel)
        (fun e =>
           log Critical "Closing positions FAILED >>> Retrying..." [] ;;
           log Warning "traceback.format_exc()" [] ;;
           sleep 2) ;;
      close_position self rounds' fuel
  end.

(** ** Observations on a run

    What the properties below say about the events of a run. *)

(** *** Attempts and alerts of retry_wrapper *)

(** Projections of the result of [retry_attempts] and [retry_wrapper]. *)
Definition r_result {A} (x : Res A * dict * World * list Event) : Res A := x.1.1.1.
Definition r_params {A} (x : Res A * dict * World * list Event) : dict := x.1.1.2.
Definition r_world {A} (x : Res A * dict * World * list Event) : World := x.1.2.
Definition r_events {A} (x : Res A * dict * World * list Event) : list Event := x.2.

(** What [retry_wrapper] itself does: evaluations of [func] and alerts. *)
Inductive Marker := Attempted (ok : bool) | Alerted.

Definition marker (e : Event) : option Marker :=
  match e with
  | EvAttempt _ _ ok => Some (Attempted ok)
  | EvAlert _ _ => Some Alerted
  | _ => None
  end.

Definition markers (evs : list Event) : list Marker := omap marker evs.

(** An operation that records no attempt and sends no alert of its own. *)
Definition unmarked (func : dict -> Py pyval) : Prop :=
  forall p w, markers (events (func p w)) = [].

(** An operation that raises an ordinary exception whenever it is called
    with a dict satisfying [R]. *)
Definition always_fails (R : dict -> Prop) (func : dict -> Py pyval) : Prop :=
  forall p w, R p -> exists e, result (func p w) = Exc e /\ is_Exception e = true.

(** Two dicts that agree on every key but ["timestamp"], which is present
    in both or in neither. *)
Definition same_but_timestamp (p q : dict) : Prop :=
  (forall k, k <> "timestamp" -> q !! k = p !! k)
  /\ (p !! "timestamp" = None -> q = p)
  /\ (is_Some (p !! "timestamp") -> is_Some (q !! "timestamp")).



Definition is_request (e : Event) : bool :=
  match e with EvCall _ _ => true | _ => false end.

(** *** The operations and their requests *)

(** The operations that the bot routes through [retry_wrapper]. *)
Inductive Operation := SpotPlaceOrder | FuturePlaceOrder | AccountTransfer.

Definition operation_kw (self : BinanceArbBot) (op : Operation) : dict -> Py pyval :=
  match op with
  | SpotPlaceOrder => spot_place_order_kw self
  | FuturePlaceOrder => future_place_order_kw self
  | AccountTransfer => account_transfer_kw self
  end.

(** A dict that binds to the parameters of the operation and that the
    operation rejects in its last [else] branch (lines 73-74, 102-103 and
    132-133). *)
Definition config_error (op : Operation) (params : dict) : bool :=
  match op with
  | SpotPlaceOrder =>
      kwargs_ok ["symbol"; "direction"; "price"; "amount"] [] params
      && negb (py_eq_str (kwarg params "direction" PNone) "long")
      && negb (py_eq_str (kwarg params "direction" PNone) "short")
  | FuturePlaceOrder =>
      kwargs_ok ["symbol"; "direction"; "price"; "amount"] [] params
      && negb (py_eq_str (kwarg params "direction" PNone) "open_short")
      && negb (py_eq_str (kwarg params "direction" PNone) "close_short")
  | AccountTransfer =>
      kwargs_ok ["currency"; "amount"] ["from_account"; "to_account"] params
      && negb (py_eq_str (kwarg params "from_account" (PStr "spot")) "spot"
               && py_eq_str (kwarg params "to_account" (PStr "coin-margin")) "coin-margin")
      && negb (py_eq_str (kwarg params "from_account" (PStr "spot")) "coin-margin"
               && py_eq_str (kwarg params "to_account" (PStr "coin-margin")) "spot")
  end.

(** Failing fast: one evaluation of the operation, whose exception leaves
    [retry_wrapper]. *)
Definition fails_fast (self : BinanceArbBot) (op : Operation) (params : dict)
    (act_name : string) (w : World) : Prop :=
  let x := retry_wrapper self (operation_kw self op) params act_name 1 true w in
  markers (r_events x) = [Attempted false]
  /\ exists e, r_result x = Exc e /\ is_Exception e = true.

(** A body all of whose events, in every run, have the property [φ]. *)
Definition quiet {A} (φ : Event -> Prop) (m : Py A) : Prop :=
  forall w, Forall φ (events (m w)).

(** The requests an operation can send when called with the dict [p]. *)
Definition op_request (op : Operation) (p : dict) (req : Request) : Prop :=
  match op with
  | SpotPlaceOrder =>
      (py_eq_str (kwarg p "direction" PNone) "long" = true
       /\ req = create_limit_buy_order (kwarg p "symbol" PNone)
                  (kwarg p "amount" PNone) (kwarg p "price" PNone))
      \/ (py_eq_str (kwarg p "direction" PNone) "short" = true
          /\ req = create_limit_sell_order (kwarg p "symbol" PNone)
                     (kwarg p "amount" PNone) (kwarg p "price" PNone))
  | FuturePlaceOrder =>
      exists d, req = dapiPrivatePostOrder d
                /\ d !! "quantity" = Some (kwarg p "amount" PNone)
                /\ d !! "side" =
                   Some (PStr (if py_eq_str (kwarg p "direction" PNone) "open_short"
                               then "SELL" else "BUY"))
                /\ d !! "positionSide" = Some (PStr "SHORT")
  | AccountTransfer =>
      exists d, req = sapiPostAssetTransfer d
                /\ d !! "amount" = Some (kwarg p "amount" PNone)
                /\ d !! "asset" = Some (kwarg p "currency" PNone)
  end.

(** *** Sizes *)




(** *** Orders and their turn *)

(** Order requests, by market and by side. *)
Definition str_at (d : dict) (k s : string) : bool :=
  match d !! k with
  | Some v => py_eq_str v s
  | None => false
  end.

Definition is_limit_buy (e : Event) : bool :=
  match e with EvCall (create_limit_buy_order _ _ _) _ => true | _ => false end.

Definition is_limit_sell (e : Event) : bool :=
  match e with EvCall (create_limit_sell_order _ _ _) _ => true | _ => false end.

Definition is_spot_order (e : Event) : bool := is_limit_buy e || is_limit_sell e.

Definition is_future_order (e : Event) : bool :=
  match e with EvCall (dapiPrivatePostOrder _) _ => true | _ => false end.

(** A futures order with the given side and [positionSide=SHORT]. *)
Definition is_short_order (side : string) (e : Event) : bool :=
  match e with
  | EvCall (dapiPrivatePostOrder d) _ => str_at d "side" side && str_at d "positionSide" "SHORT"
  | _ => false
  end.

Definition is_transfer (e : Event) : bool :=
  match e with EvCall (sapiPostAssetTransfer _) _ => true | _ => false end.

Definition is_fetch_balance (e : Event) : bool :=
  match e with EvCall fetch_balance _ => true | _ => false end.

(** A request that the exchange answered: the order is placed. *)
Definition placed (e : Event) : bool :=
  match e with EvCall _ (Answers _) => true | _ => false end.

Definition is_placed (kind : Event -> bool) (e : Event) : bool := kind e && placed e.

(** In [evs], every request of the kind [second] comes after a placed order
    of the kind [first]. *)
Definition placed_before (first second : Event -> bool) (evs : list Event) : Prop :=
  forall pre e post, evs = pre ++ e :: post -> second e = true ->
    Exists (fun f => is_placed first f = true) pre.

(** The same, as a check that runs over the events; [seen] tells whether a
    placed order of the first kind has been met. *)
Fixpoint placed_before_from (first second : Event -> bool) (seen : bool)
    (evs : list Event) : bool :=
  match evs with
  | [] => true
  | e :: rest =>
      (negb (second e) || seen)
      && placed_before_from first second (seen || is_placed first e) rest
  end.

(** Bodies whose events pass the check in every run. *)
Definition passes_check {A} (first second : Event -> bool) (m : Py A) : Prop :=
  forall w, placed_before_from first second false (events (m w)) = true.

(** The kind of request of each operation. *)
Definition op_kind (op : Operation) : Event -> bool :=
  match op with
  | SpotPlaceOrder => is_spot_order
  | FuturePlaceOrder => is_future_order
  | AccountTransfer => is_transfer
  end.

(** The legs of a cycle have the sides of the phase: spot orders are of the
    kind [spot], futures orders have the side [side] and
    [positionSide=SHORT]. *)
Definition leg_sides (spot : Event -> bool) (side : string) (e : Event) : Prop :=
  (is_spot_order e = true -> spot e = true)
  /\ (is_future_order e = true -> is_short_order side e = true).

(** The requests of one pass of each loop. *)
Definition poll_request (self : BinanceArbBot) (req : Request) : Prop :=
  req = publicGetTickerBookTicker (spot_symbol_type1 self)
  \/ req = dapiPublicGetTickerBookTicker (future_symbol_type1 self).

Definition open_request (self : BinanceArbBot) (req : Request) : Prop :=
  (exists symbol amount price, req = create_limit_buy_order symbol amount price)
  \/ (exists d, req = dapiPrivatePostOrder d
                /\ d !! "side" = Some (PStr "SELL")
                /\ d !! "positionSide" = Some (PStr "SHORT"))
  \/ req = fetch_balance
  \/ (exists d, req = sapiPostAssetTransfer d
                /\ d !! "asset" = Some (PStr (coin self))).

Definition close_request (self : BinanceArbBot) (num : Qc) (req : Request) : Prop :=
  (exists d, req = dapiPrivatePostOrder d
             /\ d !! "side" = Some (PStr "BUY")
             /\ d !! "positionSide" = Some (PStr "SHORT"))
  \/ (exists symbol amount price, req = create_limit_sell_order symbol amount price)
  \/ (exists d, req = sapiPostAssetTransfer d
                /\ d !! "amount" = Some (PFloat num)
                /\ d !! "asset" = Some (PStr (coin self))).

(** *** Balances and transfers *)

(** The requests and sleeps of a run, in order. *)
Inductive Step :=
| Balance
| Quote
| SpotLeg
| FutureLeg
| Transferred (amount : pyval)
| Slept (seconds : Z).

Definition step (e : Event) : option Step :=
  match e with
  | EvCall fetch_balance _ => Some Balance
  | EvCall (publicGetTickerBookTicker _) _ => Some Quote
  | EvCall (dapiPublicGetTickerBookTicker _) _ => Some Quote
  | EvCall (create_limit_buy_order _ _ _) _ => Some SpotLeg
  | EvCall (create_limit_sell_order _ _ _) _ => Some SpotLeg
  | EvCall (dapiPrivatePostOrder _) _ => Some FutureLeg
  | EvCall (sapiPostAssetTransfer d) _ => Some (Transferred (kwarg d "amount" PNone))
  | EvSleep s => Some (Slept s)
  | _ => None
  end.

Definition steps (evs : list Event) : list Step := omap step evs.

(** A transfer request carries the amount [num]. *)
Definition transfer_amount (num : Qc) (e : Event) : Prop :=
  match e with
  | EvCall (sapiPostAssetTransfer d) _ => d !! "amount" = Some (PFloat num)
  | _ => True
  end.

(** The events of a cycle that transfers a freshly read balance: both
    orders are placed, then comes the settlement sleep, then the balance is
    fetched, and what follows sends no order and transfers the free balance
    of [asset] just read. *)
Definition transfers_fresh_balance (asset : string) (evs : list Event) : Prop :=
  exists pre free num post,
    evs = pre ++ EvSleep 2 :: EvCall fetch_balance (Answers (BalanceInfo free)) :: post
    /\ free !! asset = Some num
    /\ existsb (is_placed is_spot_order) pre = true
    /\ existsb (is_placed is_future_order) pre = true
    /\ Forall (fun e => is_transfer e = false) pre
    /\ Forall (fun e => is_spot_order e = false /\ is_future_order e = false
                        /\ is_fetch_balance e = false) post
    /\ Forall (transfer_amount num) post
    /\ existsb (is_placed is_transfer) post = true.

(** A settlement sleep followed at once by a balance that was fetched. *)
Definition is_settlement_sleep (e : Event) : bool :=
  match e with EvSleep s => s =? 2 | _ => false end.

Definition starts_with_balance (evs : list Event) : bool :=
  match evs with
  | e :: _ => is_placed is_fetch_balance e
  | [] => false
  end.

Fixpoint sleeps_then_fetches (evs : list Event) : bool :=
  match evs with
  | [] => false
  | e :: rest =>
      is_settlement_sleep e && starts_with_balance rest || sleeps_then_fetches rest
  end.

(** *** Exits and restarts *)

(** The events after which the process is to exit: the alert of the retry
    wrapper, and the record of the maximum of closing executions. *)
Definition is_terminal (e : Event) : bool :=
  match e with
  | EvAlert _ _ => true
  | EvLog Info t [] =>
      bool_decide (t = "Maximum execution number reached >>> Position closing stops.")
  | _ => false
  end.

(** A run in which a terminal event, if any, is the last event, and then
    the run ends in [SystemExit]. *)
Definition exits_at_terminal {A} (x : Res A * World * list Event) : Prop :=
  Forall (fun e => is_terminal e = false) (events x)
  \/ exists pre t, events x = pre ++ [t]
                   /\ Forall (fun e => is_terminal e = false) pre
                   /\ result x = Exc SystemExit.

(** The counts reported by the closing loop, pass after pass. *)
Definition execution_count (e : Event) : option Z :=
  match e with
  | EvLog Info t [PInt k] =>
      if bool_decide (t = "Number of closing executions: {now_execute_num}")
      then Some k else None
  | _ => None
  end.

Definition execution_counts (evs : list Event) : list Z := omap execution_count evs.


(** A pass of the closing loop entered with the count [k]: when it returns,
    it returns [k] or [k + 1] and has reported that count once; when it
    does not return, it has reported no count. *)
Definition counted (k : Z) (x : Res Z * World * list Event) : Prop :=
  match result x with
  | Val k' => (k' = k \/ k' = k + 1) /\ execution_counts (events x) = [k']
  | _ => execution_counts (events x) = []
  end.


(** *** Polls *)

(** The first record of a cycle, in each phase. *)
Definition open_trigger_log : Event :=
  EvLog Debug "Price difference LARGER than threshold >>> Starting arbitrage..." [].
Definition close_trigger_log : Event :=
  EvLog Debug "Price difference SMALLER than threshold >>> Stopping arbitrage..." [].


(** *** Calls that bind and are accepted *)

(** The dict binds to the parameters of the operation. *)
Definition binds (op : Operation) (params : dict) : bool :=
  match op with
  | SpotPlaceOrder | FuturePlaceOrder =>
      kwargs_ok ["symbol"; "direction"; "price"; "amount"] [] params
  | AccountTransfer =>
      kwargs_ok ["currency"; "amount"] ["from_account"; "to_account"] params
  end.

(** The dict binds and the operation takes one of its first two branches:
    it goes on to send its request. *)
Definition accepted (op : Operation) (params : dict) : bool :=
  match op with
  | SpotPlaceOrder =>
      kwargs_ok ["symbol"; "direction"; "price"; "amount"] [] params
      && (py_eq_str (kwarg params "direction" PNone) "long"
          || py_eq_str (kwarg params "direction" PNone) "short")
  | FuturePlaceOrder =>
      kwargs_ok ["symbol"; "direction"; "price"; "amount"] [] params
      && (py_eq_str (kwarg params "direction" PNone) "open_short"
          || py_eq_str (kwarg params "direction" PNone) "close_short")
  | AccountTransfer =>
      kwargs_ok ["currency"; "amount"] ["from_account"; "to_account"] params
      && (py_eq_str (kwarg params "from_account" (PStr "spot")) "spot"
          && py_eq_str (kwarg params "to_account" (PStr "coin-margin")) "coin-margin"
          || py_eq_str (kwarg params "from_account" (PStr "spot")) "coin-margin"
             && py_eq_str (kwarg params "to_account" (PStr "coin-margin")) "spot")
  end.

(** The number of requests sent in a run, and of evaluations of a retried
    operation. *)
Definition request_count (evs : list Event) : nat :=
  length (List.filter is_request evs).

Definition is_attempt (e : Event) : bool :=
  match e with EvAttempt _ _ _ => true | _ => false end.

Definition attempt_count (evs : list Event) : nat :=
  length (List.filter is_attempt evs).

(** An answer of the exchange that ends the attempts of a retried call: a
    payload, or a failure that is not an [Exception]. *)
Definition answered (resp : Response) : bool :=
  match resp with Answers _ => true | Fails _ => false end.

Definition ends_attempts (resp : Response) : bool :=
  match resp with
  | Answers _ => true
  | Fails e => negb (is_Exception e)
  end.

(** What an accepted call makes of the answer to its request. *)
Definition outcome (resp : Response) : Res pyval :=
  match resp with
  | Answers pl => Val (PInfo pl)
  | Fails e => Exc e
  end.

(** The exchange fails the [k] requests that follow those of [w], each with
    an ordinary exception. *)
Definition fails_next (self : BinanceArbBot) (w : World) (k : nat) : Prop :=
  forall i, (i < k)%nat ->
    exists e, exchange self (requests w + i) = Fails e /\ is_Exception e = true.

(** *** Timestamps *)

(** The timestamp that a request carries in its dict, in milliseconds. *)
Definition stamp (e : Event) : option Z :=
  match e with
  | EvCall (dapiPrivatePostOrder d) _ | EvCall (sapiPostAssetTransfer d) _ =>
      match d !! "timestamp" with
      | Some (PInt t) => Some t
      | _ => None
      end
  | _ => None
  end.

Definition stamps (evs : list Event) : list Z := omap stamp evs.


(** *** The opening loop *)

(** The counts reported by the opening loop, cycle after cycle. *)
Definition opening_count (e : Event) : option Z :=
  match e with
  | EvLog Info t [PInt k] =>
      if bool_decide (t = "Number of opening executions: {execute_num}")
      then Some k else None
  | _ => None
  end.

Definition opening_counts (evs : list Event) : list Z := omap opening_count evs.

(** The last record of an opening phase that ran to its end. *)
Definition open_stop_log : Event :=
  EvLog Info "Maximum execution number reached >>> Position opening stops." [].

(** A pass of the opening loop entered with the count [k]: when it returns,
    either no cycle ran, the count is unchanged and nothing was reported, or
    one cycle completed and [k + 1] is returned and reported once. *)
Definition opened (k : Z) (x : Res Z * World * list Event) : Prop :=
  forall k', result x = Val k' ->
    (k' = k /\ opening_counts (events x) = [])
    \/ (k' = k + 1 /\ opening_counts (events x) = [k + 1]).

(** *** The requests of a cycle, field by field *)







(** *** The end of the closing loop *)

(** The record written when the closing loop has reached its maximum. *)
Definition is_close_stop (e : Event) : bool :=
  match e with
  | EvLog Info t [] =>
      bool_decide (t = "Maximum execution number reached >>> Position closing stops.")
  | _ => false
  end.

(** Events that are neither that record nor a report of the count. *)
Definition plain (e : Event) : Prop :=
  is_close_stop e = false /\ execution_count e = None.

(** When the events hold the record of the maximum, the last count
    reported is [n]. *)
Definition stops_at (n : Z) (evs : list Event) : Prop :=
  existsb is_close_stop evs = true -> last (execution_counts evs) = Some n.

(** ** Scenarios

    Concrete bots, exchanges and worlds on which the model is run. *)

Definition qc (n : Z) (d : positive) : Qc := Q2Qc (n # d).

Definition w0 : World := {| requests := 0; clock := 1700000000123 |}.


(** An exchange that answers no request. *)
Definition exchange_down : nat -> Response := fun _ => Fails GatewayError.

Definition demo_bot (ex : nat -> Response) : BinanceArbBot := {|
  exchange := ex;
  coin := "BTC";
  future_date := "210625";
  coin_precision := 1;
  slippage := qc 1 1000;
  spot_fee_rate := qc 1 1000;
  contract_fee_rate := qc 5 10000;
  multipler := {["BTC" := Qc_of_Z 100]};
  amount := Qc_of_Z 1000;
  num_maximum := 1;
  threshold := qc 5 1000;
  max_trial := 3;
|}.

Definition stamped_params : dict :=
  <["timestamp" := PInt 0]> {["symbol" := PStr "BTC/USDT"]}.

(** An exchange on which one opening cycle goes through: the two quotes
    (futures bid 101 over spot ask 100), the spot order, the futures order,
    the balance and the transfer. *)
Definition exchange_open (n : nat) : Response :=
  match n with
  | 0%nat => Answers (BookTicker (Qc_of_Z 100) (Qc_of_Z 99))
  | 1%nat => Answers (BookTicker (Qc_of_Z 102) (Qc_of_Z 101))
  | 2%nat => Answers (OrderInfo 7 (Some (Qc_of_Z 100)))
  | 3%nat => Answers (OrderInfo 8 None)
  | 4%nat => Answers (BalanceInfo (<["BTC" := Qc_of_Z 3]> {["USDT" := Qc_of_Z 1000]}))
  | 5%nat => Answers (RawInfo 1)
  | _ => Fails GatewayError
  end.

(** An exchange on which one closing cycle goes through: the two balances
    read at entry (5 BTC free), the two quotes (futures ask 100 at spot bid
    100), the futures order, the spot order and the transfer. *)
Definition exchange_close (n : nat) : Response :=
  match n with
  | 0%nat => Answers (BalanceInfo (<["BTC" := Qc_of_Z 5]> {["USDT" := Qc_of_Z 1000]}))
  | 1%nat => Answers (BalanceInfo (<["BTC" := Qc_of_Z 5]> {["USDT" := Qc_of_Z 1000]}))
  | 2%nat => Answers (BookTicker (Qc_of_Z 101) (Qc_of_Z 100))
  | 3%nat => Answers (BookTicker (Qc_of_Z 100) (Qc_of_Z 99))
  | 4%nat => Answers (OrderInfo 8 None)
  | 5%nat => Answers (OrderInfo 7 (Some (Qc_of_Z 100)))
  | 6%nat => Answers (RawInfo 1)
  | _ => Fails GatewayError
  end.

(** The worlds in which the cycle of each scenario starts: after the two
    quotes of the opening poll, and after the two balances and the two
    quotes of the closing loop. *)
Definition w_open_cycle : World := {| requests := 2; clock := 1700000000123 |}.
Definition w_close_cycle : World := {| requests := 4; clock := 1700000000123 |}.

(** A bot that closes in two executions, on an exchange where the first
    closing cycle goes through and the next quote fails; after that the
    balances and quotes come in again, the futures ask (110) being far above
    the spot bid (100). *)
Definition patient_bot (ex : nat -> Response) : BinanceArbBot := {|
  exchange := ex;
  coin := "BTC";
  future_date := "210625";
  coin_precision := 1;
  slippage := qc 1 1000;
  spot_fee_rate := qc 1 1000;
  contract_fee_rate := qc 5 10000;
  multipler := {["BTC" := Qc_of_Z 100]};
  amount := Qc_of_Z 1000;
  num_maximum := 2;
  threshold := qc 5 1000;
  max_trial := 3;
|}.

Definition exchange_glitch (n : nat) : Response :=
  match n with
  | 7%nat => Fails GatewayError
  | 8%nat | 9%nat =>
      Answers (BalanceInfo (<["BTC" := Qc_of_Z 5]> {["USDT" := Qc_of_Z 1000]}))
  | 10%nat => Answers (BookTicker (Qc_of_Z 101) (Qc_of_Z 100))
  | 11%nat => Answers (BookTicker (Qc_of_Z 110) (Qc_of_Z 109))
  | _ => exchange_close n
  end.

(** A spot order whose direction is neither [long] nor [short]. *)
Definition sideways_params : dict :=
  <["symbol" := PStr "BTC/USDT"]>
    (<["direction" := PStr "sideways"]>
      (<["price" := PFloat (Qc_of_Z 100)]>
        {["amount" := PFloat (Qc_of_Z 1)]})).

(** An exchange that rejects the first two requests and answers the
    third. *)
Definition exchange_flaky (n : nat) : Response :=
  match n with
  | 0%nat | 1%nat => Fails GatewayError
  | _ => Answers (OrderInfo 7 (Some (Qc_of_Z 100)))
  end.

(** A spot buy as the opening cycle asks for it. *)
Definition long_params : dict :=
  <["symbol" := PStr "BTC/USDT"]>
    (<["direction" := PStr "long"]>
      (<["price" := PFloat (Qc_of_Z 100)]>
        {["amount" := PFloat (Qc_of_Z 1)]})).

(** The same bot with another number of trials. *)
Definition with_max_trial (n : Z) (self : BinanceArbBot) : BinanceArbBot := {|
  exchange := exchange self;
  coin := coin self;
  future_date := future_date self;
  coin_precision := coin_precision self;
  slippage := slippage self;
  spot_fee_rate := spot_fee_rate self;
  contract_fee_rate := contract_fee_rate self;
  multipler := multipler self;
  amount := amount self;
  num_maximum := num_maximum self;
  threshold := threshold self;
  max_trial := n;
|}.


(** The same bot with another maximum of executions. *)
Definition with_num_maximum (n : Z) (self : BinanceArbBot) : BinanceArbBot := {|
  exchange := exchange self;
  coin := coin self;
  future_date := future_date self;
  coin_precision := coin_precision self;
  slippage := slippage self;
  spot_fee_rate := spot_fee_rate self;
  contract_fee_rate := contract_fee_rate self;
  multipler := multipler self;
  amount := amount self;
  num_maximum := n;
  threshold := threshold self;
  max_trial := max_trial self;
|}.

(** An exchange that gives the two quotes of a poll above the threshold and
    rejects every order. *)
Definition exchange_rejecting (n : nat) : Response :=
  match n with
  | 0%nat => Answers (BookTicker (Qc_of_Z 100) (Qc_of_Z 99))
  | 1%nat => Answers (BookTicker (Qc_of_Z 102) (Qc_of_Z 101))
  | _ => Fails GatewayError
  end.

(** * Properties *)

(** ** Running the monad *)

Lemma result_bind {A B} (m : Py A) (k : A -> Py B) w :
  result ((m ≫= k) w) =
  match result (m w) with
  | Val a => result (k a (world (m w)))
  | Exc e => Exc e
  | Diverge => Diverge
  end.
Proof.
  unfold mbind, Py_bind, bind, result, world.
  destruct (m w) as [[r w1] ev1]; simpl.
  destruct r; [destruct (k a w1) as [[r2 w2] ev2] |..]; reflexivity.
Qed.

Lemma events_bind {A B} (m : Py A) (k : A -> Py B) w :
  events ((m ≫= k) w) =
  events (m w) ++
  match result (m w) with
  | Val a => events (k a (world (m w)))
  | _ => []
  end.
Proof.
  unfold mbind, Py_bind, bind, result, world, events.
  destruct (m w) as [[r w1] ev1]; simpl.
  destruct r; [destruct (k a w1) as [[r2 w2] ev2] |..]; simpl;
    rewrite ?app_nil_r; reflexivity.
Qed.

Lemma markers_app (l1 l2 : list Event) : markers (l1 ++ l2) = markers l1 ++ markers l2.
Proof. apply omap_app. Qed.

(** ** retry_wrapper *)

Lemma retry_handler_run params act s e w :
  0 <= s ->
  retry_handler params act s e w =
  (Val tt, later s w,
   [EvPrintParams params;
    EvLog Warning "{act_name} ({self.exchange.id}) FAIL | Retry after {sleep_seconds} seconds..."
      [PStr act; PInt s];
    EvLog Warning "traceback.format_exc()" [];
    EvSleep s]).
Proof.
  intros Hs. unfold retry_handler, mbind, Py_bind, bind, emit, log, sleep. simpl.
  destruct (s <? 0) eqn:E; [apply Z.ltb_lt in E; lia | reflexivity].
Qed.

Lemma reset_timestamp_frame params w :
  same_but_timestamp params (reset_timestamp params w).
Proof.
  unfold same_but_timestamp, reset_timestamp.
  destruct (params !! "timestamp") eqn:E.
  - split; [|split].
    + intros k Hk. by rewrite lookup_insert_ne.
    + discriminate.
    + intros _. rewrite lookup_insert_eq. eauto.
  - split; [|split]; done.
Qed.




(** The loop on an operation that fails each time: it runs to its end and
    has evaluated the operation once per trial. *)
Lemma retry_attempts_all_fail (R : dict -> Prop) func act s :
  0 <= s -> unmarked func -> always_fails R func ->
  (forall p w, R p -> R (reset_timestamp p w)) ->
  forall trials params w, R params ->
  let x := retry_attempts trials func params act s w in
  r_result x = Val None /\ markers (r_events x) = repeat (Attempted false) trials.
Proof.
  intros Hs Hun Hfail HR. induction trials as [|n IH]; intros params w Hp; simpl.
  - split; reflexivity.
  - pose proof (Hfail (reset_timestamp params w) w (HR _ w Hp)) as (e & He & Hexc).
    pose proof (Hun (reset_timestamp params w) w) as Hm.
    destruct (func (reset_timestamp params w) w) as [[r w1] ev1].
    unfold result, events in He, Hm; simpl in He, Hm. subst r. rewrite Hexc.
    rewrite retry_handler_run by exact Hs.
    specialize (IH (reset_timestamp params w) (later s w1) (HR _ w Hp)).
    destruct (retry_attempts n func _ act s _) as [[[r3 p3] w3] ev3].
    unfold r_result, r_events in *; simpl in *. destruct IH as [-> IH].
    split; [reflexivity|].
    rewrite markers_app, Hm. simpl. by rewrite IH.
Qed.



(** A property of single events carries over from the operation to the
    loop around it, when the loop's own events have it. *)
Lemma retry_attempts_Forall (R : dict -> Prop) (φ : Event -> Prop) func act s :
  (forall p w, R p -> R (reset_timestamp p w)) ->
  (forall p w, R p -> Forall φ (events (func p w))) ->
  (forall p w ok, R p -> φ (EvAttempt act (reset_timestamp p w) ok)) ->
  (forall p, φ (EvPrintParams p)) ->
  (forall t a, φ (EvLog Warning t a)) ->
  φ (EvSleep s) ->
  forall trials params w, R params ->
  let x := retry_attempts trials func params act s w in
  R (r_params x) /\ Forall φ (r_events x).
Proof.
  intros HR Hfunc Hatt Hprint Hwarn Hsleep.
  induction trials as [|n IH]; intros params w Hp; simpl.
  - split; [exact Hp | constructor].
  - pose proof (HR _ w Hp) as Hp1.
    pose proof (Hfunc _ w Hp1) as Hm.
    destruct (func (reset_timestamp params w) w) as [[r w1] ev1].
    unfold events in Hm; simpl in Hm.
    assert (Hone : forall ok, Forall φ (ev1 ++ [EvAttempt act (reset_timestamp params w) ok])).
    { intros ok. apply Forall_app; split; [exact Hm|]. constructor; [by apply Hatt | constructor]. }
    destruct r as [v|e|]; unfold r_params, r_events; simpl; try (split; [exact Hp1 | apply Hone]).
    destruct (is_Exception e); simpl; try (split; [exact Hp1 | apply Hone]).
    destruct (retry_handler _ act s e w1) as [[r2 w2] ev2] eqn:E2.
    assert (Hm2 : Forall φ ev2).
    { revert E2. unfold retry_handler, mbind, Py_bind, bind, emit, log, sleep.
      simpl. destruct (s <? 0); intros [= <- <- <-]; repeat constructor; auto. }
    assert (Htwo : Forall φ (ev1 ++ EvAttempt act (reset_timestamp params w) false :: ev2)).
    { apply Forall_app; split; [exact Hm|]. constructor; [by apply Hatt | exact Hm2]. }
    destruct r2 as [[]|e2|]; simpl; try (split; [exact Hp1 | exact Htwo]).
    specialize (IH (reset_timestamp params w) w2 Hp1).
    destruct (retry_attempts n func _ act s w2) as [[[r3 p3] w3] ev3].
    unfold r_params, r_events in IH; simpl in *. destruct IH as [IH1 IH2].
    split; [exact IH1|].
    apply Forall_app; split; [exact Hm|].
    constructor; [by apply Hatt|]. apply Forall_app; split; assumption.
Qed.

Lemma escalate_run params act is_exit w :
  escalate params act is_exit w =
  (if is_exit then Exc SystemExit else Val PNone, w,
   [EvLog Critical "{act_name} FAIL too many times... Arbitrage STOPs!" [PStr act];
    EvAlert act params]).
Proof. destruct is_exit; reflexivity. Qed.

Lemma retry_wrapper_Forall (R : dict -> Prop) (φ : Event -> Prop) self func act s is_exit :
  (forall p w, R p -> R (reset_timestamp p w)) ->
  (forall p w, R p -> Forall φ (events (func p w))) ->
  (forall p w ok, R p -> φ (EvAttempt act (reset_timestamp p w) ok)) ->
  (forall p, φ (EvPrintParams p)) ->
  (forall t a, φ (EvLog Warning t a)) ->
  φ (EvSleep s) ->
  (forall t a, φ (EvLog Critical t a)) ->
  (forall p, R p -> φ (EvAlert act p)) ->
  forall params w, R params ->
  let x := retry_wrapper self func params act s is_exit w in
  R (r_params x) /\ Forall φ (r_events x).
Proof.
  intros HR Hfunc Hatt Hprint Hwarn Hsleep Hcrit Halert params w Hp.
  pose proof (retry_attempts_Forall R φ func act s HR Hfunc Hatt Hprint Hwarn Hsleep
                (Z.to_nat (max_trial self)) params w Hp) as H.
  unfold retry_wrapper.
  destruct (retry_attempts _ func params act s w) as [[[r p1] w1] ev1].
  unfold r_params, r_events in *; simpl in *. destruct H as [H1 H2].
  destruct r as [[v|]|e|]; simpl; try (split; assumption).
  rewrite escalate_run. simpl. split; [exact H1|].
  apply Forall_app; split; [exact H2|]. repeat constructor; auto.
Qed.


Lemma reset_timestamp_absent params w :
  params !! "timestamp" = None -> reset_timestamp params w = params.
Proof. intros H. unfold reset_timestamp. by rewrite H. Qed.

Lemma retry_wrapper_markers_all_fail (R : dict -> Prop) self func params act s is_exit w :
  0 <= s -> unmarked func -> always_fails R func ->
  (forall p w, R p -> R (reset_timestamp p w)) -> R params ->
  let x := retry_wrapper self func params act s is_exit w in
  r_result x = (if is_exit then Exc SystemExit else Val PNone)
  /\ markers (r_events x) =
     repeat (Attempted false) (Z.to_nat (max_trial self)) ++ [Alerted]
  /\ exists evs, r_events x = evs ++ [EvAlert act (r_params x)].
Proof.
  intros Hs Hun Hfail HR Hp.
  pose proof (retry_attempts_all_fail R func act s Hs Hun Hfail HR
                (Z.to_nat (max_trial self)) params w Hp) as H.
  unfold retry_wrapper.
  destruct (retry_attempts _ func params act s w) as [[[r p1] w1] ev1].
  unfold r_result, r_events, r_params in *; simpl in *. destruct H as [-> H].
  rewrite escalate_run. simpl. split; [reflexivity|]. split.
  - rewrite markers_app, H. reflexivity.
  - eexists (ev1 ++ [_]). rewrite <- app_assoc. reflexivity.
Qed.







(** ** The three operations *)

Lemma kwargs_ok_keys required optional (params : dict) k :
  kwargs_ok required optional params = true ->
  is_Some (params !! k) -> k ∈ required ++ optional.
Proof.
  unfold kwargs_ok. intros H [v Hv].
  apply andb_prop in H as [_ H].
  rewrite forallb_forall in H.
  specialize (H (k, v)). rewrite bool_decide_eq_true in H. apply H.
  apply list_elem_of_In. by apply elem_of_map_to_list.
Qed.

Lemma config_error_no_timestamp op params :
  config_error op params = true -> params !! "timestamp" = None.
Proof.
  intros H. destruct (params !! "timestamp") eqn:E; [exfalso | reflexivity].
  assert (Hs : is_Some (params !! "timestamp")) by eauto.
  destruct op; simpl in H;
    apply andb_prop in H as [H _]; apply andb_prop in H as [H _];
    apply (kwargs_ok_keys _ _ _ _ H) in Hs;
    repeat (apply elem_of_cons in Hs as [Hs|Hs]; [discriminate|]);
    by apply elem_of_nil in Hs.
Qed.

Lemma config_error_raises self op params w :
  config_error op params = true ->
  exists e, operation_kw self op params w = (Exc e, w, []) /\ is_Exception e = true.
Proof.
  intros H. destruct op; simpl in H;
    apply andb_prop in H as [H H3]; apply andb_prop in H as [H1 H2];
    apply negb_true_iff in H2, H3; simpl.
  - exists ValueError. split; [|reflexivity].
    unfold spot_place_order_kw. rewrite H1.
    unfold binance_spot_place_order. rewrite H2, H3. reflexivity.
  - exists TypeError. split; [|reflexivity].
    unfold future_place_order_kw. rewrite H1.
    unfold binance_future_place_order. rewrite H2, H3. reflexivity.
  - exists ValueError. split; [|reflexivity].
    unfold account_transfer_kw. rewrite H1.
    unfold binance_account_transfer. rewrite H2, H3. reflexivity.
Qed.

Ltac run_op :=
  unfold spot_place_order_kw, future_place_order_kw, account_transfer_kw,
    binance_spot_place_order, binance_future_place_order, binance_account_transfer,
    timestamp_ms, mbind, Py_bind, bind, gateway, log, emit, raise, ret, mret, Py_ret;
  repeat match goal with
         | |- context [if ?c then _ else _] => destruct c
         | |- context [match exchange ?s ?n with _ => _ end] => destruct (exchange s n)
         end.

Lemma operation_unmarked self op : unmarked (operation_kw self op).
Proof. intros p w. destruct op; simpl; run_op; reflexivity. Qed.

(** C4 as stated does not hold: a spot order with an unknown direction is
    evaluated [max_trial] times, not once, and what leaves [retry_wrapper]
    is the exit after the alert, not the [ValueError]. *)
Lemma C4_counterexample :
  config_error SpotPlaceOrder sideways_params = true
  /\ ~ fails_fast (demo_bot exchange_down) SpotPlaceOrder sideways_params
         "Long spot orders" w0.
Proof.
  split; [reflexivity|].
  intros [H _]. vm_compute in H. discriminate H.
Qed.

(** C4, amended. A call that the operation rejects as a configuration error
    (an unknown spot or futures direction, an unknown pair of accounts) is
    handled by [retry_wrapper] like any other failure: the operation is
    evaluated [max_trial] times, fails each time without sending a request
    to the exchange, then one alert is sent and the process exits (or
    [None] is returned when [is_exit] is false). *)
Theorem C4_config_errors_are_retried
    (self : BinanceArbBot) (op : Operation) (params : dict)
    (act_name : string) (sleep_seconds : Z) (is_exit : bool) (w : World) :
  0 <= sleep_seconds -> config_error op params = true ->
  let x := retry_wrapper self (operation_kw self op) params act_name
             sleep_seconds is_exit w in
  markers (r_events x) =
    repeat (Attempted false) (Z.to_nat (max_trial self)) ++ [Alerted]
  /\ r_result x = (if is_exit then Exc SystemExit else Val PNone)
  /\ Forall (fun e => is_request e = false) (r_events x).
Proof.
  intros Hs Herr x.
  pose proof (config_error_no_timestamp op params Herr) as Hts.
  assert (HR : forall p w1, p = params -> reset_timestamp p w1 = params).
  { intros p w1 ->. by apply reset_timestamp_absent. }
  destruct (retry_wrapper_markers_all_fail (fun p => p = params) self
              (operation_kw self op) params act_name sleep_seconds is_exit w Hs
              (operation_unmarked self op)) as (Hr & Hm & _); auto.
  { intros p w1 ->. destruct (config_error_raises self op params w1 Herr) as (e & He & Hexc).
    exists e. rewrite He. split; [reflexivity | exact Hexc]. }
  split; [exact Hm|]. split; [exact Hr|].
  apply (retry_wrapper_Forall (fun p => p = params) (fun e => is_request e = false));
    try (intros; reflexivity); auto.
  intros p w1 ->. destruct (config_error_raises self op params w1 Herr) as (e & He & _).
  rewrite He. constructor.
Qed.

Lemma C4_witness :
  0 <= 1 /\ config_error SpotPlaceOrder sideways_params = true
  /\ markers (r_events (retry_wrapper (demo_bot exchange_down)
                          (operation_kw (demo_bot exchange_down) SpotPlaceOrder)
                          sideways_params "Long spot orders" 1 true w0))
     = [Attempted false; Attempted false; Attempted false; Alerted].
Proof.
  assert (H1 : 0 <= 1) by lia.
  assert (H2 : config_error SpotPlaceOrder sideways_params = true) by reflexivity.
  split; [exact H1|]. split; [exact H2|].
  exact (proj1 (C4_config_errors_are_retried (demo_bot exchange_down) SpotPlaceOrder
                  sideways_params "Long spot orders" 1 true w0 H1 H2)).
Defined.

(** ** Stepping through a body *)

Lemma bind_val {A B} (m : Py A) (k : A -> Py B) w a w1 ev1 :
  m w = (Val a, w1, ev1) -> (m ≫= k) w = prepend ev1 (k a w1).
Proof.
  unfold mbind, Py_bind, bind, prepend. intros ->.
  destruct (k a w1) as [[r2 w2] ev2]. reflexivity.
Qed.

Lemma prepend_prepend {A} l1 l2 (x : Res A * World * list Event) :
  prepend l1 (prepend l2 x) = prepend (l1 ++ l2) x.
Proof. destruct x as [[r w] ev]. unfold prepend. simpl. by rewrite app_assoc. Qed.


Lemma gateway_answers self req w p :
  exchange self (requests w) = Answers p ->
  gateway self req w = (Val p, next_request w, [EvCall req (Answers p)]).
Proof. unfold gateway. intros ->. reflexivity. Qed.





Tactic Notation "step_with" uconstr(H) :=
  (erewrite bind_val by (exact H)); cbv beta.
Ltac step_refl := erewrite bind_val by reflexivity; cbv beta.












(** ** Properties of all the events of a body *)

Lemma quiet_ret {A} φ (a : A) : quiet φ (mret a).
Proof. intros w. constructor. Qed.

Lemma quiet_raise {A} φ e : quiet φ (@raise A e).
Proof. intros w. constructor. Qed.

Lemma quiet_emit (φ : Event -> Prop) e : φ e -> quiet φ (emit e).
Proof. intros H w. repeat constructor. exact H. Qed.

Lemma quiet_sleep (φ : Event -> Prop) s : φ (EvSleep s) -> quiet φ (sleep s).
Proof. intros H w. unfold sleep. destruct (s <? 0); repeat constructor. exact H. Qed.

Lemma quiet_gateway (φ : Event -> Prop) self req :
  (forall resp, φ (EvCall req resp)) -> quiet φ (gateway self req).
Proof.
  intros H w. unfold gateway.
  destruct (exchange self (requests w)) eqn:E; repeat constructor; apply H.
Qed.

Lemma quiet_bind {A B} φ (m : Py A) (k : A -> Py B) :
  quiet φ m -> (forall a, quiet φ (k a)) -> quiet φ (m ≫= k).
Proof.
  intros Hm Hk w. rewrite events_bind. apply Forall_app. split; [apply Hm|].
  destruct (result (m w)); [apply Hk | constructor | constructor].
Qed.

Lemma bind_ret_l {A B} (a : A) (k : A -> Py B) w : (mret a ≫= k) w = k a w.
Proof.
  unfold mbind, Py_bind, bind, mret, Py_ret, ret.
  destruct (k a w) as [[r2 w2] ev2]. reflexivity.
Qed.

Lemma quiet_bind_ret {A B} φ (a : A) (k : A -> Py B) :
  quiet φ (k a) -> quiet φ (mret a ≫= k).
Proof. intros H w. rewrite bind_ret_l. apply H. Qed.

Lemma quiet_bind_raise {A B} φ e (k : A -> Py B) : quiet φ (raise e ≫= k).
Proof. intros w. constructor. Qed.

Lemma silent_quiet {A} φ (m : Py A) : (forall w, events (m w) = []) -> quiet φ m.
Proof. intros H w. rewrite H. constructor. Qed.

Lemma retry_call_run self func params act w :
  result (retry_call self func params act w)
    = r_result (retry_wrapper self func params act 1 true w)
  /\ events (retry_call self func params act w)
    = r_events (retry_wrapper self func params act 1 true w).
Proof.
  unfold retry_call. destruct (retry_wrapper self func params act 1 true w)
    as [[[r p1] w1] ev1]. split; reflexivity.
Qed.

Lemma quiet_retry_call (R : dict -> Prop) (φ : Event -> Prop) self func params act :
  (forall p w, R p -> R (reset_timestamp p w)) ->
  (forall p, R p -> quiet φ (func p)) ->
  (forall p w ok, R p -> φ (EvAttempt act (reset_timestamp p w) ok)) ->
  (forall p, φ (EvPrintParams p)) ->
  (forall t a, φ (EvLog Warning t a)) ->
  φ (EvSleep 1) ->
  (forall t a, φ (EvLog Critical t a)) ->
  (forall p, R p -> φ (EvAlert act p)) ->
  R params ->
  quiet φ (retry_call self func params act).
Proof.
  intros HR Hfunc Hatt Hprint Hwarn Hsleep Hcrit Halert Hp w.
  destruct (retry_call_run self func params act w) as [_ ->].
  apply (retry_wrapper_Forall R φ self func act 1 true); auto.
  intros p w1 Hp1. by apply Hfunc.
Qed.

(** The events of the three operations: at most one request, then debug
    records. *)
Lemma quiet_operation (φ : Event -> Prop) self op p :
  (forall req resp, op_request op p req -> φ (EvCall req resp)) ->
  (forall t a, φ (EvLog Debug t a)) ->
  quiet φ (operation_kw self op p).
Proof.
  intros Hreq Hlog. destruct op; simpl.
  - unfold spot_place_order_kw, binance_spot_place_order.
    destruct (kwargs_ok _ _ p); [|apply quiet_raise].
    destruct (py_eq_str _ "long") eqn:E1; [|destruct (py_eq_str _ "short") eqn:E2].
    + apply quiet_bind; [apply quiet_gateway; intros resp; apply Hreq; simpl; auto|].
      intros a. repeat (apply quiet_bind; [apply quiet_emit, Hlog | intros _]).
      apply quiet_ret.
    + apply quiet_bind; [apply quiet_gateway; intros resp; apply Hreq; simpl; auto|].
      intros a. repeat (apply quiet_bind; [apply quiet_emit, Hlog | intros _]).
      apply quiet_ret.
    + apply quiet_bind; [apply quiet_raise | intros a].
      repeat (apply quiet_bind; [apply quiet_emit, Hlog | intros _]). apply quiet_ret.
  - unfold future_place_order_kw, binance_future_place_order.
    destruct (kwargs_ok _ _ p); [|apply quiet_raise].
    destruct (py_eq_str _ "open_short") eqn:E1;
      [|destruct (py_eq_str _ "close_short") eqn:E2].
    + apply quiet_bind_ret.
      apply quiet_bind; [apply silent_quiet; reflexivity | intros ts].
      apply quiet_bind.
      { apply quiet_gateway. intros resp. apply Hreq. simpl. eexists.
        split; [reflexivity|]. rewrite E1. repeat split; by simplify_map_eq. }
      intros a. repeat (apply quiet_bind; [apply quiet_emit, Hlog | intros _]).
      apply quiet_ret.
    + apply quiet_bind_ret.
      apply quiet_bind; [apply silent_quiet; reflexivity | intros ts].
      apply quiet_bind.
      { apply quiet_gateway. intros resp. apply Hreq. simpl. eexists.
        split; [reflexivity|]. rewrite E1. repeat split; by simplify_map_eq. }
      intros a. repeat (apply quiet_bind; [apply quiet_emit, Hlog | intros _]).
      apply quiet_ret.
    + apply quiet_bind_raise.
  - unfold account_transfer_kw, binance_account_transfer.
    destruct (kwargs_ok _ _ p); [|apply quiet_raise].
    apply quiet_bind.
    { destruct (_ && _); [apply quiet_ret|].
      destruct (_ && _); [apply quiet_ret | apply quiet_raise]. }
    intros ty. apply quiet_bind; [apply silent_quiet; reflexivity | intros ts].
    apply quiet_bind.
    { apply quiet_gateway. intros resp. apply Hreq. simpl. eexists.
      split; [reflexivity|]. repeat split; by simplify_map_eq. }
    intros a. repeat (apply quiet_bind; [apply quiet_emit, Hlog | intros _]).
    apply quiet_ret.
Qed.

(** ** Sizing *)

Lemma py_int_floor (x : Qc) : (0 <= x)%Qc -> py_int x = floorQc x.
Proof.
  intros H. unfold py_int, floorQc, Qfloor. destruct x as [[n d] Hc]. simpl in *.
  apply Z.quot_div_nonneg; [|lia].
  unfold Qcle, Qle in H. simpl in H. lia.
Qed.


Lemma Qcminus_ne_0 (x y : Qc) : y <> x -> (x - y)%Qc <> 0%Qc.
Proof.
  intros Hne H. apply Hne.
  assert (E : (x - y + y = 0 + y)%Qc) by (by rewrite H).
  ring_simplify in E. by rewrite E.
Qed.




Lemma kwarg_reset_timestamp p w k :
  k <> "timestamp" -> kwarg (reset_timestamp p w) k = kwarg p k.
Proof.
  intros Hk. unfold kwarg.
  destruct (reset_timestamp_frame p w) as (H & _ & _). by rewrite (H k Hk).
Qed.

Ltac quiet_leaf :=
  first [ apply quiet_ret | apply quiet_raise
        | apply quiet_emit; try exact I
        | apply quiet_sleep; try exact I
        | apply quiet_gateway; intros ?; try exact I
        | apply silent_quiet; intros ?; reflexivity ].

(** A retried operation whose requests have [φ], when [φ] holds of every
    event that is not a request. *)
Lemma quiet_retry_operation (R : dict -> Prop) (φ : Event -> Prop) self op params act :
  (forall e, is_request e = false -> φ e) ->
  (forall p w, R p -> R (reset_timestamp p w)) ->
  (forall p req resp, R p -> op_request op p req -> φ (EvCall req resp)) ->
  R params ->
  quiet φ (retry_call self (operation_kw self op) params act).
Proof.
  intros Hφ HR Hreq Hp.
  apply (quiet_retry_call R φ); auto; try (intros; apply Hφ; reflexivity).
  intros p Hp1. apply quiet_operation; [|intros; apply Hφ; reflexivity].
  intros req resp. by apply Hreq.
Qed.

Lemma quiet_free_of φ balance asset : quiet φ (free_of balance asset).
Proof.
  unfold free_of. destruct balance as [| free | |]; try quiet_leaf.
  destruct (free !! asset); quiet_leaf.
Qed.

Lemma quiet_average_of φ v : quiet φ (average_of v).
Proof.
  unfold average_of. destruct v as [| | | |[]]; try quiet_leaf.
  destruct average; quiet_leaf.
Qed.








(** ** The order of the two legs *)

Section PlacedBefore.
Variables first second : Event -> bool.

Lemma placed_before_from_seen evs : placed_before_from first second true evs = true.
Proof.
  induction evs as [|e evs IH]; simpl; [reflexivity|].
  rewrite orb_true_r. exact IH.
Qed.

Lemma placed_before_from_app seen l1 l2 :
  placed_before_from first second seen (l1 ++ l2) =
  placed_before_from first second seen l1
  && placed_before_from first second (seen || existsb (is_placed first) l1) l2.
Proof.
  revert seen. induction l1 as [|e l1 IH]; intros seen; simpl.
  - by rewrite orb_false_r.
  - rewrite IH. by rewrite <- andb_assoc, orb_assoc.
Qed.

Lemma placed_before_from_none seen evs :
  Forall (fun e => second e = false) evs ->
  placed_before_from first second seen evs = true.
Proof.
  revert seen. induction evs as [|e evs IH]; intros seen H; simpl; [reflexivity|].
  inversion H as [|? ? He Hrest]; subst. rewrite He. simpl. by apply IH.
Qed.

Lemma placed_before_from_sound evs : forall seen,
  placed_before_from first second seen evs = true ->
  forall pre e post, evs = pre ++ e :: post -> second e = true ->
  seen = true \/ Exists (fun f => is_placed first f = true) pre.
Proof.
  induction evs as [|x evs IH]; intros seen H pre e post Heq He.
  - by destruct pre.
  - simpl in H. apply andb_prop in H as [H1 H2].
    destruct pre as [|y pre]; simpl in Heq; injection Heq as -> ->.
    + rewrite He in H1. simpl in H1. by left.
    + destruct (IH _ H2 pre e post eq_refl He) as [Hs|Hex].
      * apply orb_prop in Hs as [Hs|Hs]; [by left|]. right. by constructor.
      * right. by apply Exists_cons_tl.
Qed.

Lemma placed_before_check evs :
  placed_before_from first second false evs = true -> placed_before first second evs.
Proof.
  intros H pre e post Heq He.
  destruct (placed_before_from_sound evs false H pre e post Heq He) as [Hs|Hex];
    [discriminate | exact Hex].
Qed.

Lemma in_order_quiet {A} (m : Py A) :
  quiet (fun e => second e = false) m -> passes_check first second m.
Proof. intros H w. by apply placed_before_from_none. Qed.

Lemma in_order_bind_quiet {A B} (m : Py A) (k : A -> Py B) :
  quiet (fun e => second e = false) m -> (forall a, passes_check first second (k a)) ->
  passes_check first second (m ≫= k).
Proof.
  intros Hm Hk w. rewrite events_bind, placed_before_from_app.
  rewrite (placed_before_from_none _ _ (Hm w)). simpl.
  destruct (existsb (is_placed first) (events (m w))); [apply placed_before_from_seen|].
  destruct (result (m w)); [apply Hk | reflexivity | reflexivity].
Qed.

Lemma in_order_bind_tail {A B} (m : Py A) (k : A -> Py B) :
  passes_check first second m -> (forall a, quiet (fun e => second e = false) (k a)) ->
  passes_check first second (m ≫= k).
Proof.
  intros Hm Hk w. rewrite events_bind, placed_before_from_app, (Hm w). simpl.
  apply placed_before_from_none.
  destruct (result (m w)); [apply Hk | constructor | constructor].
Qed.

(** Once the first leg is placed, whatever follows is in order. *)
Lemma in_order_bind_placed {A B} (m : Py A) (k : A -> Py B) :
  quiet (fun e => second e = false) m ->
  (forall w a, result (m w) = Val a -> existsb (is_placed first) (events (m w)) = true) ->
  passes_check first second (m ≫= k).
Proof.
  intros Hm Hplaced w. rewrite events_bind, placed_before_from_app.
  rewrite (placed_before_from_none _ _ (Hm w)). simpl.
  destruct (result (m w)) as [a|e|] eqn:E;
    [|apply placed_before_from_none; constructor..].
  rewrite (Hplaced w a E). apply placed_before_from_seen.
Qed.
End PlacedBefore.

(** ** A retried call that returns has been answered *)

Lemma retry_attempts_success (χ : Event -> bool) func act s :
  (forall p w v, result (func p w) = Val v -> existsb χ (events (func p w)) = true) ->
  forall trials params w v,
  r_result (retry_attempts trials func params act s w) = Val (Some v) ->
  existsb χ (r_events (retry_attempts trials func params act s w)) = true.
Proof.
  intros Hfunc. induction trials as [|n IH]; intros params w v; simpl.
  - discriminate.
  - pose proof (Hfunc (reset_timestamp params w) w) as Hm.
    destruct (func (reset_timestamp params w) w) as [[r w1] ev1].
    unfold result, events in Hm; simpl in Hm.
    destruct r as [v1|e|]; unfold r_result, r_events; simpl.
    + intros _. rewrite existsb_app, (Hm v1 eq_refl). reflexivity.
    + destruct (is_Exception e); [|discriminate].
      destruct (retry_handler _ act s e w1) as [[r2 w2] ev2].
      destruct r2 as [[]|e2|]; try discriminate.
      specialize (IH (reset_timestamp params w) w2 v).
      destruct (retry_attempts n func _ act s w2) as [[[r3 p3] w3] ev3].
      unfold r_result, r_events in IH; simpl in *.
      intros H. rewrite existsb_app. simpl. rewrite existsb_app, (IH H).
      by rewrite !orb_true_r.
    + discriminate.
Qed.

Lemma retry_call_success (χ : Event -> bool) self func params act w v :
  (forall p w v, result (func p w) = Val v -> existsb χ (events (func p w)) = true) ->
  result (retry_call self func params act w) = Val v ->
  existsb χ (events (retry_call self func params act w)) = true.
Proof.
  intros Hfunc. destruct (retry_call_run self func params act w) as [-> ->].
  pose proof (retry_attempts_success χ func act 1 Hfunc
                (Z.to_nat (max_trial self)) params w) as H.
  unfold retry_wrapper.
  destruct (retry_attempts _ func params act 1 w) as [[[r p1] w1] ev1].
  unfold r_result, r_events in *; simpl in *.
  destruct r as [[v1|]|e|]; simpl; try discriminate.
  intros _. by apply (H v1).
Qed.

Lemma operation_success self op p w v :
  result (operation_kw self op p w) = Val v ->
  existsb (is_placed (op_kind op)) (events (operation_kw self op p w)) = true.
Proof.
  destruct op; simpl; run_op; intros H; try discriminate H; reflexivity.
Qed.

(** ** The requests of a cycle *)

Lemma quiet_truediv φ a b : quiet φ (truediv a b).
Proof. unfold truediv. destruct (Qc_eqb b 0); quiet_leaf. Qed.

Lemma quiet_multipler_of φ self : quiet φ (multipler_of self).
Proof. unfold multipler_of. destruct (_ !! _); quiet_leaf. Qed.

Lemma quiet_open_sizing φ self p_f : quiet φ (open_sizing self p_f).
Proof.
  unfold open_sizing.
  repeat (apply quiet_bind;
          [first [apply quiet_multipler_of | apply quiet_truediv] | intros ?]).
  quiet_leaf.
Qed.

Lemma quiet_close_sizing φ self p_f : quiet φ (close_sizing self p_f).
Proof.
  unfold close_sizing.
  repeat (apply quiet_bind;
          [first [apply quiet_multipler_of | apply quiet_truediv] | intros ?]).
  quiet_leaf.
Qed.

Lemma quiet_askPrice_of φ p : quiet φ (askPrice_of p).
Proof. destruct p; quiet_leaf. Qed.

Lemma quiet_bidPrice_of φ p : quiet φ (bidPrice_of p).
Proof. destruct p; quiet_leaf. Qed.

Ltac quiet_pure :=
  first [ apply quiet_askPrice_of | apply quiet_bidPrice_of | apply quiet_truediv
        | apply quiet_multipler_of | apply quiet_open_sizing | apply quiet_close_sizing
        | apply quiet_free_of | apply quiet_average_of ].

Section Inventory.
Variable φ : Event -> Prop.
Variable self : BinanceArbBot.
Hypothesis other : forall e, is_request e = false -> φ e.

Ltac other_leaf :=
  first [ quiet_pure
        | apply quiet_ret | apply quiet_raise
        | apply quiet_emit; apply other; reflexivity
        | apply quiet_sleep; apply other; reflexivity ].

Lemma quiet_close_cycle num spot_ask1 coin_bid1 n :
  (forall req resp, close_request self num req -> φ (EvCall req resp)) ->
  quiet φ (close_cycle self num spot_ask1 coin_bid1 n).
Proof.
  intros Hreq. unfold close_cycle.
  apply quiet_bind; [other_leaf | intros _].
  apply quiet_bind; [other_leaf | intros [[[cn ce] fee] sq]].
  apply quiet_bind; [other_leaf | intros _].
  apply quiet_bind.
  { apply (quiet_retry_operation
             (fun p => kwarg p "direction" PNone = PStr "close_short")
             _ self FuturePlaceOrder); auto.
    - intros p w1 Hp. by rewrite kwarg_reset_timestamp.
    - intros p req resp Hp (d & -> & _ & Hside & Hpos). apply Hreq. left.
      exists d. rewrite Hp in Hside. auto. }
  intros future_order_info. apply quiet_bind.
  { apply (quiet_retry_operation
             (fun p => kwarg p "direction" PNone = PStr "short")
             _ self SpotPlaceOrder); auto.
    - intros p w1 Hp. by rewrite kwarg_reset_timestamp.
    - intros p req resp Hp [[Hd _]|[_ ->]]; [by rewrite Hp in Hd|].
      apply Hreq. right; left. eauto. }
  intros spot_order_info. apply quiet_bind; [other_leaf | intros _].
  apply quiet_bind.
  { apply (quiet_retry_operation
             (fun p => kwarg p "amount" PNone = PFloat num
                       /\ kwarg p "currency" PNone = PStr (coin self))
             _ self AccountTransfer); auto.
    - intros p w1 [Hp1 Hp2]. by rewrite !kwarg_reset_timestamp.
    - intros p req resp [Hp1 Hp2] (d & -> & Ha & Hc). apply Hreq. right; right.
      exists d. rewrite Hp1 in Ha. rewrite Hp2 in Hc. auto. }
  intros _. repeat (apply quiet_bind; [other_leaf | intros ?]). other_leaf.
Qed.

Lemma quiet_open_cycle spot_ask1 coin_bid1 n :
  (forall req resp, open_request self req -> φ (EvCall req resp)) ->
  quiet φ (open_cycle self spot_ask1 coin_bid1 n).
Proof.
  intros Hreq. unfold open_cycle.
  apply quiet_bind; [other_leaf | intros _].
  apply quiet_bind; [other_leaf | intros [[[cn ce] fee] sq]].
  apply quiet_bind; [other_leaf | intros _].
  apply quiet_bind.
  { apply (quiet_retry_operation
             (fun p => kwarg p "direction" PNone = PStr "long")
             _ self SpotPlaceOrder); auto.
    - intros p w1 Hp. by rewrite kwarg_reset_timestamp.
    - intros p req resp Hp [[_ ->]|[Hd _]]; [|by rewrite Hp in Hd].
      apply Hreq. left. eauto. }
  intros spot_order_info. apply quiet_bind.
  { apply (quiet_retry_operation
             (fun p => kwarg p "direction" PNone = PStr "open_short")
             _ self FuturePlaceOrder); auto.
    - intros p w1 Hp. by rewrite kwarg_reset_timestamp.
    - intros p req resp Hp (d & -> & _ & Hside & Hpos). apply Hreq. right; left.
      exists d. rewrite Hp in Hside. auto. }
  intros future_order_info. apply quiet_bind; [other_leaf | intros _].
  apply quiet_bind.
  { apply quiet_gateway. intros resp. apply Hreq. right; right; left. reflexivity. }
  intros balance. apply quiet_bind; [other_leaf | intros num].
  apply quiet_bind; [other_leaf | intros _].
  apply quiet_bind.
  { apply (quiet_retry_operation
             (fun p => kwarg p "currency" PNone = PStr (coin self))
             _ self AccountTransfer); auto.
    - intros p w1 Hp. by rewrite !kwarg_reset_timestamp.
    - intros p req resp Hp (d & -> & Ha & Hc). apply Hreq. right; right; right.
      exists d. rewrite Hp in Hc. auto. }
  intros _. repeat (apply quiet_bind; [other_leaf | intros ?]). other_leaf.
Qed.

Lemma quiet_poll (req : Request) :
  (forall req resp, poll_request self req -> φ (EvCall req resp)) ->
  poll_request self req -> quiet φ (gateway self req).
Proof. intros Hreq Hp. apply quiet_gateway. intros resp. by apply Hreq. Qed.

Lemma quiet_close_iteration num n :
  (forall req resp, poll_request self req \/ close_request self num req ->
                    φ (EvCall req resp)) ->
  quiet φ (close_iteration self num n).
Proof.
  intros Hreq. unfold close_iteration.
  apply quiet_bind; [apply quiet_poll; [|left]; auto | intros ticker].
  apply quiet_bind; [other_leaf | intros spot_ask1].
  apply quiet_bind; [apply quiet_poll; [|right]; auto | intros ticker'].
  apply quiet_bind; [other_leaf | intros coin_bid1].
  apply quiet_bind; [other_leaf | intros q].
  apply quiet_bind; [other_leaf | intros _].
  apply quiet_bind.
  { destruct (Qc_ltb _ _).
    - apply quiet_bind; [other_leaf | intros _]. other_leaf.
    - apply quiet_close_cycle. auto. }
  intros n'. repeat (apply quiet_bind; [other_leaf | intros ?]). other_leaf.
Qed.

Lemma quiet_open_iteration n :
  (forall req resp, poll_request self req \/ open_request self req ->
                    φ (EvCall req resp)) ->
  quiet φ (open_iteration self n).
Proof.
  intros Hreq. unfold open_iteration.
  apply quiet_bind; [apply quiet_poll; [|left]; auto | intros ticker].
  apply quiet_bind; [other_leaf | intros spot_ask1].
  apply quiet_bind; [apply quiet_poll; [|right]; auto | intros ticker'].
  apply quiet_bind; [other_leaf | intros coin_bid1].
  apply quiet_bind; [other_leaf | intros q].
  apply quiet_bind; [other_leaf | intros _].
  apply quiet_bind.
  { destruct (Qc_ltb _ _).
    - apply quiet_bind; [other_leaf | intros _]. other_leaf.
    - apply quiet_open_cycle. auto. }
  intros n'. repeat (apply quiet_bind; [other_leaf | intros ?]). other_leaf.
Qed.
End Inventory.

Lemma retried_operation_placed self op params act w a :
  result (retry_call self (operation_kw self op) params act w) = Val a ->
  existsb (is_placed (op_kind op))
    (events (retry_call self (operation_kw self op) params act w)) = true.
Proof.
  apply retry_call_success. intros p w1 v. apply operation_success.
Qed.

Lemma spot_retry_placed self params act w a :
  result (retry_call self (spot_place_order_kw self) params act w) = Val a ->
  existsb (is_placed is_spot_order)
    (events (retry_call self (spot_place_order_kw self) params act w)) = true.
Proof. exact (retried_operation_placed self SpotPlaceOrder params act w a). Qed.

Lemma future_retry_placed self params act w a :
  result (retry_call self (future_place_order_kw self) params act w) = Val a ->
  existsb (is_placed is_future_order)
    (events (retry_call self (future_place_order_kw self) params act w)) = true.
Proof. exact (retried_operation_placed self FuturePlaceOrder params act w a). Qed.

Lemma transfer_retry_placed self params act w a :
  result (retry_call self (account_transfer_kw self) params act w) = Val a ->
  existsb (is_placed is_transfer)
    (events (retry_call self (account_transfer_kw self) params act w)) = true.
Proof. exact (retried_operation_placed self AccountTransfer params act w a). Qed.

(** A retried operation sends requests of its own kind only. *)
Lemma retried_operation_kind (kind : Event -> bool) self op params act :
  (forall e, is_request e = false -> kind e = false) ->
  (forall p req resp, op_request op p req -> kind (EvCall req resp) = false) ->
  quiet (fun e => kind e = false) (retry_call self (operation_kw self op) params act).
Proof.
  intros Hother Hreq.
  apply (quiet_retry_operation (fun _ => True)); auto.
  intros p req resp _. apply Hreq.
Qed.

Lemma close_cycle_in_order self num spot_ask1 coin_bid1 n :
  passes_check is_future_order is_spot_order
    (close_cycle self num spot_ask1 coin_bid1 n).
Proof.
  assert (Hother : forall e, is_request e = false -> is_spot_order e = false).
  { intros [] H; try discriminate H; reflexivity. }
  unfold close_cycle.
  apply in_order_bind_quiet; [apply quiet_emit; reflexivity | intros _].
  apply in_order_bind_quiet; [apply quiet_close_sizing | intros [[[cn ce] fee] sq]].
  apply in_order_bind_quiet; [apply quiet_emit; reflexivity | intros _].
  apply in_order_bind_placed.
  - apply (retried_operation_kind is_spot_order self FuturePlaceOrder); auto.
    intros p req resp (d & -> & _). reflexivity.
  - intros w a. apply (retried_operation_placed self FuturePlaceOrder).
Qed.

Lemma open_cycle_in_order self spot_ask1 coin_bid1 n :
  passes_check is_spot_order is_future_order (open_cycle self spot_ask1 coin_bid1 n).
Proof.
  assert (Hother : forall e, is_request e = false -> is_future_order e = false).
  { intros [] H; try discriminate H; reflexivity. }
  unfold open_cycle.
  apply in_order_bind_quiet; [apply quiet_emit; reflexivity | intros _].
  apply in_order_bind_quiet; [apply quiet_open_sizing | intros [[[cn ce] fee] sq]].
  apply in_order_bind_quiet; [apply quiet_emit; reflexivity | intros _].
  apply in_order_bind_placed.
  - apply (retried_operation_kind is_future_order self SpotPlaceOrder); auto.
    intros p req resp [[_ ->]|[_ ->]]; reflexivity.
  - intros w a. apply (retried_operation_placed self SpotPlaceOrder).
Qed.

Ltac poll_prefix :=
  repeat (apply in_order_bind_quiet;
          [first [ apply quiet_gateway; intros ?; reflexivity
                 | apply quiet_askPrice_of | apply quiet_bidPrice_of
                 | apply quiet_truediv | apply quiet_emit; reflexivity ]
          | intros ?]).

Lemma close_iteration_in_order self num n :
  passes_check is_future_order is_spot_order (close_iteration self num n).
Proof.
  unfold close_iteration. poll_prefix.
  apply in_order_bind_tail.
  - destruct (Qc_ltb _ _); [|apply close_cycle_in_order].
    apply in_order_quiet.
    apply quiet_bind; [apply quiet_emit; reflexivity | intros _; apply quiet_ret].
  - intros n'. apply quiet_bind; [apply quiet_emit; reflexivity | intros _].
    apply quiet_bind; [apply quiet_sleep; reflexivity | intros _; apply quiet_ret].
Qed.

Lemma open_iteration_in_order self n :
  passes_check is_spot_order is_future_order (open_iteration self n).
Proof.
  unfold open_iteration. poll_prefix.
  apply in_order_bind_tail.
  - destruct (Qc_ltb _ _); [|apply open_cycle_in_order].
    apply in_order_quiet.
    apply quiet_bind; [apply quiet_emit; reflexivity | intros _; apply quiet_ret].
  - intros n'.
    apply quiet_bind; [apply quiet_sleep; reflexivity | intros _; apply quiet_ret].
Qed.

Lemma Exists_existsb {A} (f : A -> bool) (l : list A) :
  Exists (fun x => f x = true) l -> existsb f l = true.
Proof.
  intros H. apply Exists_exists in H as (x & Hin & Hx).
  apply existsb_exists. exists x. split; [by apply list_elem_of_In | exact Hx].
Qed.

(** C1 as stated does not hold: in an opening cycle the first order request
    is the spot buy, and no futures order was placed before it. *)
Lemma C1_counterexample :
  ~ placed_before is_future_order is_spot_order
      (events (open_iteration (demo_bot exchange_open) 0 w0)).
Proof.
  intros H.
  set (evs := events (open_iteration (demo_bot exchange_open) 0 w0)) in H.
  specialize (H (firstn 5 evs) (nth 5 evs (EvSleep 0)) (skipn 6 evs)).
  assert (Heq : evs = firstn 5 evs ++ nth 5 evs (EvSleep 0) :: skipn 6 evs)
    by (vm_compute; reflexivity).
  assert (Hspot : is_spot_order (nth 5 evs (EvSleep 0)) = true)
    by (vm_compute; reflexivity).
  apply Exists_existsb in H; [|exact Heq | exact Hspot].
  vm_compute in H. discriminate H.
Qed.

(** C1, amended. In a pass of the closing loop every spot order request (a
    limit sell) comes after a placed futures order (side BUY,
    [positionSide=SHORT]); in a pass of the opening loop the legs come the
    other way round: every futures order request (side SELL,
    [positionSide=SHORT]) comes after a placed spot order (a limit buy). *)
Theorem C1_order_of_legs (self : BinanceArbBot) (num : Qc) (n : Z) (w : World) :
  (placed_before is_future_order is_spot_order (events (close_iteration self num n w))
   /\ Forall (leg_sides is_limit_sell "BUY") (events (close_iteration self num n w)))
  /\ (placed_before is_spot_order is_future_order (events (open_iteration self n w))
      /\ Forall (leg_sides is_limit_buy "SELL") (events (open_iteration self n w))).
Proof.
  assert (Hside : forall d side,
            d !! "side" = Some (PStr side) ->
            d !! "positionSide" = Some (PStr "SHORT") ->
            str_at d "side" side && str_at d "positionSide" "SHORT" = true).
  { intros d side H1 H2. unfold str_at. rewrite H1, H2. simpl.
    by rewrite !bool_decide_eq_true_2. }
  split; split.
  - apply placed_before_check, close_iteration_in_order.
  - apply quiet_close_iteration.
    + intros [] H; try discriminate H; split; discriminate.
    + intros req resp [[-> | ->] | [(d & -> & H1 & H2) | [(s & a & p & ->) | (d & -> & _)]]];
        split; simpl; try discriminate; auto.
  - apply placed_before_check, open_iteration_in_order.
  - apply quiet_open_iteration.
    + intros [] H; try discriminate H; split; discriminate.
    + intros req resp
        [[-> | ->] | [(s & a & p & ->) | [(d & -> & H1 & H2) | [-> | (d & -> & _)]]]];
        split; simpl; try discriminate; auto.
Qed.

(** ** The amount transferred *)

Lemma bind_val_inv {A B} (m : Py A) (k : A -> Py B) w b :
  result ((m ≫= k) w) = Val b ->
  exists a w1, result (m w) = Val a
               /\ result (k a w1) = Val b
               /\ events ((m ≫= k) w) = events (m w) ++ events (k a w1).
Proof.
  rewrite result_bind, events_bind.
  destruct (result (m w)) as [a|e|]; try discriminate.
  intros H. exists a, (world (m w)). auto.
Qed.

Lemma gateway_val_inv self req w p :
  result (gateway self req w) = Val p ->
  events (gateway self req w) = [EvCall req (Answers p)].
Proof.
  unfold gateway. destruct (exchange self (requests w)); simpl; [discriminate|].
  by intros [= ->].
Qed.

Lemma free_of_val_inv balance asset w num :
  result (free_of balance asset w) = Val num ->
  exists free, balance = BalanceInfo free /\ free !! asset = Some num.
Proof.
  unfold free_of. destruct balance as [| free | |]; try discriminate.
  destruct (free !! asset) eqn:E; [|discriminate].
  intros [= ->]. eauto.
Qed.

Lemma sleeps_then_fetches_app pre p post :
  sleeps_then_fetches
    (pre ++ EvSleep 2 :: EvCall fetch_balance (Answers p) :: post) = true.
Proof.
  induction pre as [|e pre IH]; [reflexivity|].
  simpl. rewrite IH. apply orb_true_r.
Qed.

Tactic Notation "invert_result" hyp(H) ident(a) ident(Ha) :=
  let w1 := fresh "w" in
  apply bind_val_inv in H as (a & w1 & Ha & H & _); cbv beta in H.

Tactic Notation "invert_bind" hyp(H) ident(a) ident(Ha) :=
  let w1 := fresh "w" in
  apply bind_val_inv in H as (a & w1 & Ha & H & ->); cbv beta in H |- *.

Lemma no_order_no_balance (e : Event) :
  is_request e = false ->
  (is_spot_order e = false /\ is_future_order e = false /\ is_fetch_balance e = false)
  /\ is_transfer e = false.
Proof. destruct e; try discriminate; auto. Qed.

(** A completed opening cycle transfers the balance it fetched after the
    two orders and the settlement sleep. *)
Lemma open_cycle_fresh_balance self a b n w n' :
  result (open_cycle self a b n w) = Val n' ->
  transfers_fresh_balance (coin self) (events (open_cycle self a b n w)).
Proof.
  intros H. unfold open_cycle in *.
  invert_bind H u1 H1.
  invert_bind H sz Hsz. destruct sz as [[[cn ce] fee] sq]. cbv beta iota in H |- *.
  invert_bind H u2 H2.
  invert_bind H si Hsi.
  invert_bind H fi Hfi.
  invert_bind H u3 H3.
  invert_bind H bal Hbal.
  invert_bind H num Hnum.
  invert_bind H u4 H4.
  invert_bind H tr Htr.
  rewrite (gateway_val_inv _ _ _ _ Hbal).
  destruct (free_of_val_inv _ _ _ _ Hnum) as (free & -> & Hfree).
  do 4 rewrite app_assoc.
  change (events (sleep 2 w5)) with [EvSleep 2].
  eexists _, free, num, _. split; [reflexivity|]. split; [exact Hfree|].
  assert (Hlog : forall (φ : Event -> Prop) lvl t args w',
            φ (EvLog lvl t args) -> Forall φ (events (log lvl t args w'))).
  { intros φ lvl t args w' Hφ. repeat constructor. exact Hφ. }
  split; [|split; [|split; [|split; [|split]]]].
  - rewrite !existsb_app.
    rewrite (spot_retry_placed self _ _ _ _ Hsi).
    by rewrite ?orb_true_r.
  - rewrite !existsb_app.
    rewrite (future_retry_placed self _ _ _ _ Hfi).
    by rewrite ?orb_true_r.
  - repeat (apply Forall_app; split).
    + by apply Hlog.
    + apply quiet_open_sizing.
    + by apply Hlog.
    + apply (retried_operation_kind is_transfer self SpotPlaceOrder).
      * intros e He. by apply no_order_no_balance.
      * intros p req resp [[_ ->]|[_ ->]]; reflexivity.
    + apply (retried_operation_kind is_transfer self FuturePlaceOrder).
      * intros e He. by apply no_order_no_balance.
      * intros p req resp (d & -> & _). reflexivity.
  - repeat (apply Forall_app; split).
    + apply quiet_free_of.
    + by apply Hlog.
    + apply (quiet_retry_operation (fun _ => True) _ self AccountTransfer); auto.
      * intros e He. by apply no_order_no_balance.
      * intros p req resp _ (d & -> & _). auto.
    + apply quiet_bind; [quiet_leaf; auto | intros _].
      apply quiet_bind; [apply quiet_average_of | intros average].
      repeat (apply quiet_bind; [quiet_leaf; auto | intros _]). quiet_leaf.
  - repeat (apply Forall_app; split).
    + apply quiet_free_of.
    + by apply Hlog.
    + apply (quiet_retry_operation (fun p => kwarg p "amount" PNone = PFloat num)
               _ self AccountTransfer); auto.
      * intros [] He; try discriminate He; exact I.
      * intros p w' Hp. by rewrite kwarg_reset_timestamp.
      * intros p req resp Hp (d & -> & Ha & _). simpl. by rewrite Ha, Hp.
    + apply quiet_bind; [quiet_leaf | intros _].
      apply quiet_bind; [apply quiet_average_of | intros average].
      repeat (apply quiet_bind; [quiet_leaf | intros _]). quiet_leaf.
  - rewrite !existsb_app.
    rewrite (transfer_retry_placed self _ _ _ _ Htr).
    by rewrite ?orb_true_r.
Qed.

(** Whatever a closing cycle does, it fetches no balance and every transfer
    it requests carries [num], the balance read at entry of the loop. *)
Lemma close_cycle_entry_balance self num spot_price future_price n w :
  Forall (fun e => is_fetch_balance e = false /\ transfer_amount num e)
    (events (close_cycle self num spot_price future_price n w)).
Proof.
  apply quiet_close_cycle.
  - intros [] H; try discriminate H; split; (reflexivity || exact I).
  - intros req resp [(d & -> & _) | [(s & a & p & ->) | (d & -> & Ha & _)]];
      split; try reflexivity; try exact I. exact Ha.
Qed.

(** The opening scenario: the cycle completes and transfers the balance it
    fetched after its orders. *)
Example open_cycle_transfers_fresh_balance :
  transfers_fresh_balance "BTC"
    (events (open_cycle (demo_bot exchange_open) (Qc_of_Z 100) (Qc_of_Z 101) 0
               w_open_cycle)).
Proof.
  apply (open_cycle_fresh_balance (demo_bot exchange_open) _ _ 0 w_open_cycle 1).
  vm_compute. reflexivity.
Qed.

(** C3. The closing path does not do what the claim says: in the closing
    scenario the run of [close_position_utils] reads the balances at entry
    (5 BTC free), polls, places the futures and the spot order, sleeps the
    settlement delay and then requests the transfer of those 5 BTC without
    fetching any balance after the orders; the completed cycle does not
    transfer a freshly read balance. *)
Theorem C3_closing_transfers_entry_balance :
  steps (events (close_position_utils (demo_bot exchange_close) 1 w0))
  = [Balance; Balance; Quote; Quote; FutureLeg; SpotLeg; Slept 2;
     Transferred (PFloat (Qc_of_Z 5)); Slept 2]
  /\ result (close_cycle (demo_bot exchange_close) (Qc_of_Z 5) (Qc_of_Z 100)
               (Qc_of_Z 100) 0 w_close_cycle) = Val 1
  /\ ~ transfers_fresh_balance "BTC"
         (events (close_cycle (demo_bot exchange_close) (Qc_of_Z 5) (Qc_of_Z 100)
                    (Qc_of_Z 100) 0 w_close_cycle)).
Proof.
  split; [vm_compute; reflexivity|]. split; [vm_compute; reflexivity|].
  intros (pre & free & num & post & Heq & _).
  assert (H : sleeps_then_fetches
                (events (close_cycle (demo_bot exchange_close) (Qc_of_Z 5)
                           (Qc_of_Z 100) (Qc_of_Z 100) 0 w_close_cycle)) = true)
    by (rewrite Heq; apply sleeps_then_fetches_app).
  vm_compute in H. discriminate H.
Qed.

(** ** Exits of the closing phase *)

Lemma exits_quiet {A} (m : Py A) w :
  quiet (fun e => is_terminal e = false) m -> exits_at_terminal (m w).
Proof. intros H. left. apply H. Qed.

Lemma exits_bind {A B} (m : Py A) (k : A -> Py B) w :
  exits_at_terminal (m w) -> (forall a w1, exits_at_terminal (k a w1)) ->
  exits_at_terminal ((m ≫= k) w).
Proof.
  intros Hm Hk. unfold exits_at_terminal. rewrite events_bind, result_bind.
  destruct Hm as [Hm | (pre & t & Hev & Hpre & Hres)].
  - destruct (result (m w)) as [a|e|]; rewrite ?app_nil_r; auto.
    destruct (Hk a (world (m w))) as [Hq | (pre & t & Hev & Hpre & Hres)].
    + left. apply Forall_app. auto.
    + right. exists (events (m w) ++ pre), t. rewrite Hev, app_assoc.
      split; [reflexivity|]. split; [apply Forall_app; auto | exact Hres].
  - rewrite Hres, app_nil_r. right. exists pre, t. auto.
Qed.

Lemma exits_try_except {A} (body : Py A) handler w :
  exits_at_terminal (body w) ->
  (forall e, quiet (fun e => is_terminal e = false) (handler e)) ->
  exits_at_terminal (try_except body handler w).
Proof.
  intros Hb Hh. unfold try_except, exits_at_terminal in *.
  destruct (body w) as [[r w1] ev1]. unfold events, result in *; simpl in *.
  destruct Hb as [Hb | (pre & t & Hev & Hpre & Hres)].
  - destruct r as [a|e|]; auto.
    destruct (is_Exception e); auto.
    specialize (Hh e w1). destruct (handler e w1) as [[r2 w2] ev2].
    left. apply Forall_app. auto.
  - subst r. simpl. right. exists pre, t. auto.
Qed.

(** A retried operation of the bot exits at its alert. *)
Lemma exits_retry_operation self op params act w :
  exits_at_terminal (retry_call self (operation_kw self op) params act w).
Proof.
  unfold exits_at_terminal.
  destruct (retry_call_run self (operation_kw self op) params act w) as [-> ->].
  pose proof (retry_attempts_Forall (fun _ => True) (fun e => is_terminal e = false)
                (operation_kw self op) act 1) as H.
  specialize (H (fun _ _ _ => I)).
  assert (Hop : forall p w1, True ->
            Forall (fun e => is_terminal e = false) (events (operation_kw self op p w1))).
  { intros p w1 _. apply quiet_operation; reflexivity. }
  specialize (H Hop (fun _ _ _ _ => eq_refl) (fun _ => eq_refl) (fun _ _ => eq_refl)
                eq_refl (Z.to_nat (max_trial self)) params w I).
  unfold retry_wrapper.
  destruct (retry_attempts _ _ params act 1 w) as [[[r p1] w1] ev1].
  unfold r_params, r_events, r_result in *; simpl in *. destruct H as [_ H].
  destruct r as [[v|]|e|]; simpl; auto.
  right. eexists (ev1 ++ [_]), _. rewrite <- app_assoc. split; [reflexivity|].
  split; [|reflexivity]. apply Forall_app. split; [exact H|]. repeat constructor.
Qed.

Ltac calm_leaf :=
  first [ quiet_pure | apply quiet_ret | apply quiet_raise
        | apply quiet_emit; reflexivity
        | apply quiet_sleep; reflexivity
        | apply quiet_gateway; intros ?; reflexivity ].

Ltac exits_step self :=
  apply exits_bind;
  [ first [ apply (exits_retry_operation self SpotPlaceOrder)
          | apply (exits_retry_operation self FuturePlaceOrder)
          | apply (exits_retry_operation self AccountTransfer)
          | apply exits_quiet; calm_leaf ]
  | intros ? ? ].

Lemma exits_close_cycle self num spot_ask1 coin_bid1 n w :
  exits_at_terminal (close_cycle self num spot_ask1 coin_bid1 n w).
Proof.
  unfold close_cycle.
  exits_step self. exits_step self.
  match goal with a : (Z * Qc * Qc * Qc)%type |- _ => destruct a as [[[cn ce] fee] sq] end.
  repeat exits_step self. apply exits_quiet. calm_leaf.
Qed.

Lemma exits_close_iteration self num n w :
  exits_at_terminal (close_iteration self num n w).
Proof.
  unfold close_iteration. do 6 exits_step self.
  apply exits_bind.
  - destruct (Qc_ltb _ _); [|apply exits_close_cycle].
    apply exits_quiet. apply quiet_bind; [calm_leaf | intros _; calm_leaf].
  - intros n' w'. repeat exits_step self. apply exits_quiet. calm_leaf.
Qed.

Lemma exits_close_loop self num : forall fuel n w,
  exits_at_terminal (close_loop self fuel num n w).
Proof.
  induction fuel as [|fuel IH]; intros n w; simpl.
  - left. constructor.
  - apply exits_bind; [apply exits_close_iteration|].
    intros n' w'. destruct (num_maximum self <=? n'); [|apply IH].
    right. eexists [], _. split; [reflexivity|]. split; [constructor | reflexivity].
Qed.

Lemma exits_close_position_utils self fuel w :
  exits_at_terminal (close_position_utils self fuel w).
Proof.
  unfold close_position_utils. do 6 exits_step self.
  apply exits_bind.
  - destruct (Qc_ltb _ _); apply exits_quiet; calm_leaf.
  - intros _ w'. apply exits_close_loop.
Qed.

Lemma exits_close_position self fuel : forall rounds w,
  exits_at_terminal (close_position self rounds fuel w).
Proof.
  induction rounds as [|rounds IH]; intros w; simpl.
  - left. constructor.
  - apply exits_bind; [|intros _ w'; apply IH].
    apply exits_try_except; [apply exits_close_position_utils|].
    intros e. repeat (apply quiet_bind; [calm_leaf | intros _]). calm_leaf.
Qed.

Lemma exits_at_terminal_last {A} (x : Res A * World * list Event) pre t post :
  exits_at_terminal x -> events x = pre ++ t :: post -> is_terminal t = true ->
  post = [] /\ result x = Exc SystemExit.
Proof.
  intros [Hq | (pre' & t' & Hev & Hpre & Hres)] Heq Ht.
  - rewrite Heq in Hq. apply Forall_app in Hq as [_ Hq].
    inversion Hq as [|? ? Hf _]; subst. congruence.
  - split; [|exact Hres]. rewrite Hev in Heq.
    destruct post as [|y post _] using rev_ind; [reflexivity | exfalso].
    change (pre ++ t :: post ++ [y]) with (pre ++ (t :: post) ++ [y]) in Heq.
    rewrite app_assoc in Heq. apply app_inj_tail in Heq as [-> _].
    apply Forall_app in Hpre as [_ Hpre].
    inversion Hpre as [|? ? Hf _]; subst. congruence.
Qed.

Lemma try_except_passes {A} (body : Py A) handler w e :
  result (body w) = Exc e -> is_Exception e = false ->
  try_except body handler w = body w.
Proof.
  unfold try_except, result. destruct (body w) as [[r w1] ev1]. simpl.
  intros -> ->. reflexivity.
Qed.

(** C10. The supervisor of the closing phase lets the exit of the process
    through: when [close_position_utils] ends in an exception that is not an
    [Exception] ([SystemExit]), [close_position] ends in the same way, with
    the same events and no restart; and in every run of [close_position],
    the alert of an exhausted retry and the record of the maximum of
    executions are the last event of the run, which ends in [SystemExit]. *)
Theorem C10_exit_is_not_restarted
    (self : BinanceArbBot) (rounds fuel : nat) (w : World) :
  (forall e, result (close_position_utils self fuel w) = Exc e ->
     is_Exception e = false ->
     result (close_position self (S rounds) fuel w) = Exc e
     /\ events (close_position self (S rounds) fuel w)
        = events (close_position_utils self fuel w))
  /\ (forall pre t post,
        events (close_position self rounds fuel w) = pre ++ t :: post ->
        is_terminal t = true ->
        post = [] /\ result (close_position self rounds fuel w) = Exc SystemExit).
Proof.
  split.
  - intros e He Hexc. simpl.
    rewrite result_bind, events_bind.
    rewrite (try_except_passes _ _ w e He Hexc), He, app_nil_r. auto.
  - intros pre t post. apply exits_at_terminal_last, exits_close_position.
Qed.

Lemma C10_witness :
  result (close_position_utils (demo_bot exchange_close) 1 w0) = Exc SystemExit
  /\ is_Exception SystemExit = false
  /\ result (close_position (demo_bot exchange_close) 1 1 w0) = Exc SystemExit.
Proof.
  assert (H1 : result (close_position_utils (demo_bot exchange_close) 1 w0)
               = Exc SystemExit) by (vm_compute; reflexivity).
  assert (H2 : is_Exception SystemExit = false) by reflexivity.
  split; [exact H1|]. split; [exact H2|].
  exact (proj1 (proj1 (C10_exit_is_not_restarted (demo_bot exchange_close) 0 1 w0)
                  SystemExit H1 H2)).
Defined.

(** ** The execution counter of the closing loop *)

Lemma execution_counts_app l1 l2 :
  execution_counts (l1 ++ l2) = execution_counts l1 ++ execution_counts l2.
Proof. apply omap_app. Qed.

Lemma execution_counts_quiet (evs : list Event) :
  Forall (fun e => execution_count e = None) evs -> execution_counts evs = [].
Proof.
  induction 1 as [|e evs He _ IH]; [reflexivity|].
  unfold execution_counts in *. simpl. by rewrite He.
Qed.

Lemma uncounted_retry_operation self op params act :
  quiet (fun e => execution_count e = None)
    (retry_call self (operation_kw self op) params act).
Proof.
  apply (quiet_retry_call (fun _ => True)); auto.
  intros p _. apply quiet_operation; reflexivity.
Qed.

Ltac uncounted_step self :=
  apply quiet_bind;
  [ first [ apply (uncounted_retry_operation self SpotPlaceOrder)
          | apply (uncounted_retry_operation self FuturePlaceOrder)
          | apply (uncounted_retry_operation self AccountTransfer)
          | quiet_pure | apply quiet_ret | apply quiet_raise
          | apply quiet_emit; reflexivity
          | apply quiet_sleep; reflexivity
          | apply quiet_gateway; intros ?; reflexivity ]
  | intros ? ].

Lemma uncounted_close_cycle self num spot_ask1 coin_bid1 n :
  quiet (fun e => execution_count e = None)
    (close_cycle self num spot_ask1 coin_bid1 n).
Proof.
  unfold close_cycle.
  uncounted_step self. uncounted_step self.
  match goal with a : (Z * Qc * Qc * Qc)%type |- _ => destruct a as [[[cn ce] fee] sq] end.
  repeat uncounted_step self. apply quiet_ret.
Qed.

(** A closing cycle that returns has added one to the counter. *)
Lemma close_cycle_result self num spot_ask1 coin_bid1 n w n' :
  result (close_cycle self num spot_ask1 coin_bid1 n w) = Val n' -> n' = n + 1.
Proof.
  intros H. unfold close_cycle in H.
  invert_result H u1 H1.
  invert_result H sz Hsz. destruct sz as [[[cn ce] fee] sq]. cbv beta iota in H.
  invert_result H u2 H2. invert_result H fi Hfi. invert_result H si Hsi.
  invert_result H u3 H3. invert_result H tr Htr. invert_result H av Hav.
  invert_result H u4 H4. invert_result H u5 H5.
  by injection H as <-.
Qed.

Lemma counted_bind_quiet {A} (m : Py A) (kont : A -> Py Z) k w :
  quiet (fun e => execution_count e = None) m ->
  (forall a w1, counted k (kont a w1)) ->
  counted k ((m ≫= kont) w).
Proof.
  intros Hm Hk. unfold counted. rewrite result_bind, events_bind, execution_counts_app.
  rewrite (execution_counts_quiet _ (Hm w)). simpl.
  destruct (result (m w)) as [a|e|]; try reflexivity. apply Hk.
Qed.

Lemma close_iteration_counted self num k w :
  counted k (close_iteration self num k w).
Proof.
  unfold close_iteration.
  do 6 (apply counted_bind_quiet;
        [first [ quiet_pure | apply quiet_emit; reflexivity
               | apply quiet_gateway; intros ?; reflexivity ]
        | intros ? ?]).
  unfold counted. rewrite result_bind, events_bind, execution_counts_app.
  match goal with |- context [result (?m ?w1)] => set (x := m w1) end.
  assert (Hq : execution_counts (events x) = []).
  { apply execution_counts_quiet. subst x. destruct (Qc_ltb _ _).
    - apply quiet_bind; [apply quiet_emit; reflexivity | intros _; apply quiet_ret].
    - apply uncounted_close_cycle. }
  assert (Hr : forall k', result x = Val k' -> k' = k \/ k' = k + 1).
  { subst x. intros k'. destruct (Qc_ltb _ _).
    - intros [= <-]. by left.
    - intros H. right. by apply close_cycle_result in H. }
  rewrite Hq. destruct (result x) as [k'|e|]; try reflexivity.
  split; [by apply Hr | reflexivity].
Qed.








(** The scenario of the witness: the first run reports one execution, the
    run after the restart reports none. *)
Example restart_counts_from_zero :
  execution_counts (events (close_position (patient_bot exchange_glitch) 2 2 w0))
  = [1; 0].
Proof. vm_compute. reflexivity. Qed.

(** * Further properties *)

(** ** A retried operation that recovers *)

Lemma accepted_no_timestamp op params :
  accepted op params = true -> params !! "timestamp" = None.
Proof.
  intros H. destruct (params !! "timestamp") eqn:E; [exfalso | reflexivity].
  assert (Hs : is_Some (params !! "timestamp")) by eauto.
  destruct op; simpl in H; apply andb_prop in H as [H _];
    apply (kwargs_ok_keys _ _ _ _ H) in Hs;
    repeat (apply elem_of_cons in Hs as [Hs|Hs]; [discriminate|]);
    by apply elem_of_nil in Hs.
Qed.

(** An accepted call is one request: when the request fails, its exception
    leaves the operation; when it is answered, the answer is returned after
    two debug records. *)
Lemma accepted_call self op p w :
  accepted op p = true ->
  exists req (logs : Payload -> list Event),
    (forall pl, Forall (fun e => is_request e = false /\ marker e = None) (logs pl))
    /\ operation_kw self op p w =
       match exchange self (requests w) with
       | Fails e => (Exc e, next_request w, [EvCall req (Fails e)])
       | Answers pl =>
           (Val (PInfo pl), next_request w, EvCall req (Answers pl) :: logs pl)
       end.
Proof.
  intros H.
  destruct op; simpl in H; apply andb_prop in H as [Hkw Hdir]; simpl.
  - unfold spot_place_order_kw, binance_spot_place_order. rewrite Hkw.
    destruct (py_eq_str _ "long") eqn:E1; [|simpl in Hdir; rewrite Hdir];
      (eexists _, _; split; cycle 1;
       [ unfold mbind, Py_bind, bind, gateway, log, emit, ret;
         destruct (exchange self (requests w)); reflexivity
       | intros pl; repeat constructor ]).
  - unfold future_place_order_kw, binance_future_place_order. rewrite Hkw.
    destruct (py_eq_str _ "open_short") eqn:E1; [|simpl in Hdir; rewrite Hdir];
      (eexists _, _; split; cycle 1;
       [ unfold timestamp_ms, mbind, Py_bind, bind, gateway, log, emit, ret;
         destruct (exchange self (requests w)); reflexivity
       | intros pl; repeat constructor ]).
  - unfold account_transfer_kw, binance_account_transfer. rewrite Hkw.
    destruct (_ && _) eqn:E1; [|simpl in Hdir; rewrite Hdir];
      (eexists _, _; split; cycle 1;
       [ unfold timestamp_ms, mbind, Py_bind, bind, gateway, log, emit, ret;
         destruct (exchange self (requests w)); reflexivity
       | intros pl; repeat constructor ]).
Qed.

Lemma request_count_app l1 l2 :
  request_count (l1 ++ l2) = (request_count l1 + request_count l2)%nat.
Proof. unfold request_count. by rewrite List.filter_app, length_app. Qed.

Lemma request_count_none (evs : list Event) :
  Forall (fun e => is_request e = false) evs -> request_count evs = 0%nat.
Proof.
  unfold request_count. induction 1 as [|e evs He _ IH]; [reflexivity|].
  simpl. by rewrite He.
Qed.

Lemma markers_none (evs : list Event) :
  Forall (fun e => marker e = None) evs -> markers evs = [].
Proof.
  induction 1 as [|e evs He _ IH]; [reflexivity|].
  unfold markers in *. simpl. by rewrite He.
Qed.

Lemma attempt_count_app l1 l2 :
  attempt_count (l1 ++ l2) = (attempt_count l1 + attempt_count l2)%nat.
Proof. unfold attempt_count. by rewrite List.filter_app, length_app. Qed.

Lemma retry_attempts_settle self op act s resp :
  0 <= s -> ends_attempts resp = true ->
  forall k trials params w,
  accepted op params = true -> (k < trials)%nat ->
  fails_next self w k ->
  exchange self (requests w + k) = resp ->
  let x := retry_attempts trials (operation_kw self op) params act s w in
  r_result x = match outcome resp with
               | Val v => Val (Some v)
               | Exc e => Exc e
               | Diverge => Diverge
               end
  /\ markers (r_events x) = repeat (Attempted false) k ++ [Attempted (answered resp)]
  /\ request_count (r_events x) = S k
  /\ requests (r_world x) = (requests w + S k)%nat
  /\ clock (r_world x) = clock w + 1000 * s * Z.of_nat k
  /\ r_params x = params.
Proof.
  intros Hs Hend. induction k as [|k IH]; intros trials params w Hacc Hlt Hfail Hans;
    (destruct trials as [|trials]; [lia|]); simpl;
    rewrite (reset_timestamp_absent _ _ (accepted_no_timestamp _ _ Hacc));
    destruct (accepted_call self op params w Hacc) as (req & logs & Hlogs & ->).
  - rewrite Nat.add_0_r in Hans. rewrite Hans.
    destruct resp as [e|pl]; simpl in Hend |- *.
    + apply negb_true_iff in Hend. rewrite Hend.
      unfold r_result, r_events, r_world, r_params. simpl.
      repeat split; lia.
    + unfold r_result, r_events, r_world, r_params. simpl.
      assert (Hl1 : markers (logs pl) = []).
      { apply markers_none. eapply Forall_impl; [apply Hlogs|]. by intros e [_ ?]. }
      assert (Hl2 : request_count (logs pl) = 0%nat).
      { apply request_count_none. eapply Forall_impl; [apply Hlogs|]. by intros e [? _]. }
      change (EvCall req (Answers pl) :: logs pl ++ [EvAttempt act params true])
        with ([EvCall req (Answers pl)] ++ logs pl ++ [EvAttempt act params true]).
      rewrite !markers_app, !request_count_app, Hl1, Hl2.
      repeat split; lia.
  - destruct (Hfail 0%nat ltac:(lia)) as (e & He & Hexc).
    rewrite Nat.add_0_r in He. rewrite He, Hexc.
    rewrite retry_handler_run by exact Hs.
    specialize (IH trials params (later s (next_request w)) Hacc ltac:(lia)).
    assert (Hfail' : fails_next self (later s (next_request w)) k).
    { intros i Hi. destruct (Hfail (S i) ltac:(lia)) as (e' & He' & Hexc').
      exists e'. split; [|exact Hexc']. simpl.
      by replace (S (requests w + i)) with (requests w + S i)%nat by lia. }
    assert (Hans' : exchange self (requests (later s (next_request w)) + k) = resp).
    { simpl. by replace (S (requests w + k)) with (requests w + S k)%nat by lia. }
    specialize (IH Hfail' Hans').
    destruct (retry_attempts trials (operation_kw self op) params act s _)
      as [[[r3 p3] w3] ev3].
    unfold r_result, r_events, r_world, r_params in *. simpl in *.
    destruct IH as (-> & IHm & IHc & IHr & IHk & ->).
    split; [reflexivity|]. split; [|split; [|split; [|split]]].
    + by rewrite IHm.
    + unfold request_count in *. simpl. by rewrite IHc.
    + lia.
    + lia.
    + reflexivity.
Qed.

(** X1. A retried operation that the exchange ends up settling.  When the
    call is accepted by the operation, the next [k] requests fail with
    ordinary exceptions ([k] below [max_trial]) and the one after them is
    answered, or fails with an exception that is not an [Exception],
    [retry_wrapper] evaluates the operation [k + 1] times and sends one
    request each time, sleeps [sleep_seconds] after each of the [k]
    failures, sends no alert and leaves the caller's dict as it is; its
    result is the answer, or that last exception. *)
Theorem X1_retry_wrapper_settles
    (self : BinanceArbBot) (op : Operation) (params : dict) (act_name : string)
    (sleep_seconds : Z) (is_exit : bool) (w : World) (k : nat) (resp : Response) :
  0 <= sleep_seconds -> accepted op params = true ->
  (k < Z.to_nat (max_trial self))%nat ->
  fails_next self w k ->
  exchange self (requests w + k) = resp -> ends_attempts resp = true ->
  let x := retry_wrapper self (operation_kw self op) params act_name
             sleep_seconds is_exit w in
  r_result x = outcome resp
  /\ markers (r_events x) = repeat (Attempted false) k ++ [Attempted (answered resp)]
  /\ request_count (r_events x) = S k
  /\ requests (r_world x) = (requests w + S k)%nat
  /\ clock (r_world x) = clock w + 1000 * sleep_seconds * Z.of_nat k
  /\ r_params x = params.
Proof.
  intros Hs Hacc Hk Hfail Hresp Hend.
  pose proof (retry_attempts_settle self op act_name sleep_seconds resp Hs Hend k
                (Z.to_nat (max_trial self)) params w Hacc Hk Hfail Hresp) as H.
  cbv zeta in H |- *. unfold retry_wrapper.
  destruct (retry_attempts _ _ params act_name sleep_seconds w) as [[[r p1] w1] ev1].
  unfold r_result, r_events, r_world, r_params in *. simpl in *.
  destruct H as (-> & H). destruct resp as [e|pl]; simpl; exact (conj eq_refl H).
Qed.

Lemma X1_witness :
  0 <= 1 /\ accepted SpotPlaceOrder long_params = true
  /\ (2 < Z.to_nat (max_trial (demo_bot exchange_flaky)))%nat
  /\ fails_next (demo_bot exchange_flaky) w0 2
  /\ r_result (retry_wrapper (demo_bot exchange_flaky)
                 (operation_kw (demo_bot exchange_flaky) SpotPlaceOrder)
                 long_params "Long spot orders" 1 true w0)
     = Val (PInfo (OrderInfo 7 (Some (Qc_of_Z 100)))).
Proof.
  assert (H1 : 0 <= 1) by lia.
  assert (H2 : accepted SpotPlaceOrder long_params = true) by (vm_compute; reflexivity).
  assert (H3 : (2 < Z.to_nat (max_trial (demo_bot exchange_flaky)))%nat)
    by (vm_compute; lia).
  assert (H4 : fails_next (demo_bot exchange_flaky) w0 2).
  { intros [|[|i]] Hi; [exists GatewayError; split; reflexivity..|lia]. }
  split; [exact H1|]. split; [exact H2|]. split; [exact H3|]. split; [exact H4|].
  exact (proj1 (X1_retry_wrapper_settles (demo_bot exchange_flaky) SpotPlaceOrder
                  long_params "Long spot orders" 1 true w0 2 _ H1 H2 H3 H4
                  eq_refl eq_refl)).
Defined.

(** ** How many requests a retried operation sends *)

Lemma operation_one_request self op p w :
  (request_count (events (operation_kw self op p w)) <= 1)%nat
  /\ attempt_count (events (operation_kw self op p w)) = 0%nat.
Proof.
  destruct op; simpl; run_op; unfold request_count, attempt_count, events; simpl;
    split; (lia || reflexivity).
Qed.

Lemma retry_handler_counts params act s e w :
  request_count (events (retry_handler params act s e w)) = 0%nat
  /\ attempt_count (events (retry_handler params act s e w)) = 0%nat.
Proof.
  unfold retry_handler, mbind, Py_bind, bind, emit, log, sleep. simpl.
  destruct (s <? 0); split; reflexivity.
Qed.

Lemma request_count_attempt act p ok : request_count [EvAttempt act p ok] = 0%nat.
Proof. reflexivity. Qed.

Lemma attempt_count_attempt act p ok : attempt_count [EvAttempt act p ok] = 1%nat.
Proof. reflexivity. Qed.

Lemma retry_attempts_counts func act s :
  (forall p w, (request_count (events (func p w)) <= 1)%nat
               /\ attempt_count (events (func p w)) = 0%nat) ->
  forall trials params w,
  let x := retry_attempts trials func params act s w in
  (request_count (r_events x) <= attempt_count (r_events x))%nat
  /\ (attempt_count (r_events x) <= trials)%nat.
Proof.
  intros Hfunc. induction trials as [|n IH]; intros params w; simpl.
  - split; reflexivity.
  - destruct (Hfunc (reset_timestamp params w) w) as [Hr Ha].
    destruct (func (reset_timestamp params w) w) as [[r w1] ev1].
    unfold events in Hr, Ha; simpl in Hr, Ha.
    assert (Hone : forall ok,
              (request_count (ev1 ++ [EvAttempt act (reset_timestamp params w) ok])
               <= attempt_count (ev1 ++ [EvAttempt act (reset_timestamp params w) ok]))%nat
              /\ (attempt_count (ev1 ++ [EvAttempt act (reset_timestamp params w) ok])
                  <= S n)%nat).
    { intros ok. rewrite request_count_app, attempt_count_app, Ha.
      rewrite request_count_attempt, attempt_count_attempt. lia. }
    destruct r as [v|e|]; unfold r_events; simpl; try apply Hone.
    destruct (is_Exception e); simpl; try apply Hone.
    destruct (retry_handler_counts (reset_timestamp params w) act s e w1) as [Hr2 Ha2].
    destruct (retry_handler _ act s e w1) as [[r2 w2] ev2].
    unfold events in Hr2, Ha2; simpl in Hr2, Ha2.
    assert (Htwo : forall rest,
              request_count (ev1 ++ EvAttempt act (reset_timestamp params w) false
                                 :: ev2 ++ rest)
              = (request_count ev1 + request_count rest)%nat
              /\ attempt_count (ev1 ++ EvAttempt act (reset_timestamp params w) false
                                    :: ev2 ++ rest)
                 = S (attempt_count rest)).
    { intros rest.
      change (ev1 ++ EvAttempt act (reset_timestamp params w) false :: ev2 ++ rest)
        with (ev1 ++ [EvAttempt act (reset_timestamp params w) false] ++ ev2 ++ rest).
      rewrite !request_count_app, !attempt_count_app, Ha, Hr2, Ha2.
      rewrite request_count_attempt, attempt_count_attempt. lia. }
    destruct r2 as [[]|e2|]; simpl.
    + specialize (IH (reset_timestamp params w) w2).
      destruct (retry_attempts n func _ act s w2) as [[[r3 p3] w3] ev3].
      unfold r_events in IH; simpl in *.
      destruct (Htwo ev3) as [-> ->]. lia.
    + destruct (Htwo []) as [E1 E2]. rewrite app_nil_r in E1, E2. rewrite E1, E2.
      change (request_count []) with 0%nat. change (attempt_count []) with 0%nat. lia.
    + destruct (Htwo []) as [E1 E2]. rewrite app_nil_r in E1, E2. rewrite E1, E2.
      change (request_count []) with 0%nat. change (attempt_count []) with 0%nat. lia.
Qed.

(** X2. Whatever the exchange answers and whatever dict it is given, a
    retried call of one of the three operations sends at most one request
    per evaluation of the operation, and the operation is evaluated at most
    [max_trial] times: no more than [max_trial] requests reach the
    exchange. *)
Theorem X2_retried_operation_requests
    (self : BinanceArbBot) (op : Operation) (params : dict) (act_name : string)
    (sleep_seconds : Z) (is_exit : bool) (w : World) :
  let x := retry_wrapper self (operation_kw self op) params act_name
             sleep_seconds is_exit w in
  (request_count (r_events x) <= attempt_count (r_events x))%nat
  /\ (attempt_count (r_events x) <= Z.to_nat (max_trial self))%nat.
Proof.
  pose proof (retry_attempts_counts (operation_kw self op) act_name sleep_seconds
                (operation_one_request self op)
                (Z.to_nat (max_trial self)) params w) as H.
  cbv zeta in H |- *. unfold retry_wrapper.
  destruct (retry_attempts _ _ params act_name sleep_seconds w) as [[[r p1] w1] ev1].
  unfold r_events in *. simpl in *.
  destruct r as [[v|]|e|]; simpl; try exact H.
  rewrite escalate_run. simpl.
  rewrite request_count_app, attempt_count_app.
  match goal with
  | |- context [request_count [?a; ?b]] =>
      change (request_count [a; b]) with 0%nat;
      change (attempt_count [a; b]) with 0%nat
  end. lia.
Qed.

(** ** No trial at all *)

(** X3. With [max_trial <= 0] the loop of [retry_wrapper] has no pass: the
    operation is never evaluated, whatever it is; the critical record and
    the alert come at once, and the process exits (or [None] is returned
    when [is_exit] is false). *)
Theorem X3_no_trial_no_call
    (self : BinanceArbBot) (func : dict -> Py pyval) (params : dict)
    (act_name : string) (sleep_seconds : Z) (is_exit : bool) (w : World) :
  max_trial self <= 0 ->
  retry_wrapper self func params act_name sleep_seconds is_exit w =
  (if is_exit then Exc SystemExit else Val PNone, params, w,
   [EvLog Critical "{act_name} FAIL too many times... Arbitrage STOPs!" [PStr act_name];
    EvAlert act_name params]).
Proof.
  intros H. unfold retry_wrapper.
  replace (Z.to_nat (max_trial self)) with 0%nat by lia.
  simpl. rewrite escalate_run. reflexivity.
Qed.

Lemma X3_witness :
  max_trial (with_max_trial 0 (demo_bot exchange_flaky)) <= 0
  /\ r_events (retry_wrapper (with_max_trial 0 (demo_bot exchange_flaky))
                 (operation_kw (demo_bot exchange_flaky) SpotPlaceOrder)
                 long_params "Long spot orders" 1 true w0)
     = [EvLog Critical "{act_name} FAIL too many times... Arbitrage STOPs!"
          [PStr "Long spot orders"];
        EvAlert "Long spot orders" long_params].
Proof.
  assert (H : max_trial (with_max_trial 0 (demo_bot exchange_flaky)) <= 0)
    by (simpl; lia).
  split; [exact H|].
  exact (f_equal r_events
           (X3_no_trial_no_call (with_max_trial 0 (demo_bot exchange_flaky))
              (operation_kw (demo_bot exchange_flaky) SpotPlaceOrder)
              long_params "Long spot orders" 1 true w0 H)).
Defined.

(** ** Calls that do not bind *)

Lemma timestamp_unbound op (params : dict) :
  is_Some (params !! "timestamp") -> binds op params = false.
Proof.
  intros Hs. destruct (binds op params) eqn:E; [exfalso | reflexivity].
  destruct op; simpl in E;
    apply (kwargs_ok_keys _ _ _ _ E) in Hs;
    repeat (apply elem_of_cons in Hs as [Hs|Hs]; [discriminate|]);
    by apply elem_of_nil in Hs.
Qed.

Lemma unbound_raises self op params w :
  binds op params = false -> operation_kw self op params w = (Exc TypeError, w, []).
Proof.
  intros H. destruct op; simpl in H |- *.
  - unfold spot_place_order_kw. by rewrite H.
  - unfold future_place_order_kw. by rewrite H.
  - unfold account_transfer_kw. by rewrite H.
Qed.

Lemma unbound_reset op params w :
  binds op params = false -> binds op (reset_timestamp params w) = false.
Proof.
  intros H. unfold reset_timestamp. destruct (params !! "timestamp") eqn:E; [|exact H].
  apply timestamp_unbound. rewrite lookup_insert_eq. eauto.
Qed.

(** X4. A dict that does not bind to the parameters of the operation (a
    missing required name, or a key that is no parameter) makes every
    evaluation fail with [TypeError] before anything is sent: the call is
    retried [max_trial] times without a single request, then the alert is
    sent and the process exits (or [None] is returned). *)
Theorem X4_unbound_call_is_retried
    (self : BinanceArbBot) (op : Operation) (params : dict) (act_name : string)
    (sleep_seconds : Z) (is_exit : bool) (w : World) :
  0 <= sleep_seconds -> binds op params = false ->
  let x := retry_wrapper self (operation_kw self op) params act_name
             sleep_seconds is_exit w in
  (forall w1, operation_kw self op params w1 = (Exc TypeError, w1, []))
  /\ markers (r_events x) =
       repeat (Attempted false) (Z.to_nat (max_trial self)) ++ [Alerted]
  /\ r_result x = (if is_exit then Exc SystemExit else Val PNone)
  /\ request_count (r_events x) = 0%nat.
Proof.
  intros Hs Hb x.
  split; [intros w1; by apply unbound_raises|].
  destruct (retry_wrapper_markers_all_fail (fun p => binds op p = false) self
              (operation_kw self op) params act_name sleep_seconds is_exit w Hs
              (operation_unmarked self op)) as (Hr & Hm & _); auto.
  { intros p w1 Hp. exists TypeError. by rewrite (unbound_raises self op p w1 Hp). }
  { intros p w1. apply unbound_reset. }
  split; [exact Hm|]. split; [exact Hr|].
  apply request_count_none.
  apply (retry_wrapper_Forall (fun p => binds op p = false)
           (fun e => is_request e = false));
    try (intros; reflexivity); auto.
  - intros p w1. apply unbound_reset.
  - intros p w1 Hp. rewrite (unbound_raises self op p w1 Hp). constructor.
Qed.

Lemma X4_witness :
  0 <= 1 /\ binds SpotPlaceOrder stamped_params = false
  /\ markers (r_events (retry_wrapper (demo_bot exchange_flaky)
                          (operation_kw (demo_bot exchange_flaky) SpotPlaceOrder)
                          stamped_params "Long spot orders" 1 true w0))
     = [Attempted false; Attempted false; Attempted false; Alerted].
Proof.
  assert (H1 : 0 <= 1) by lia.
  assert (H2 : binds SpotPlaceOrder stamped_params = false) by (vm_compute; reflexivity).
  split; [exact H1|]. split; [exact H2|].
  exact (proj1 (proj2 (X4_unbound_call_is_retried (demo_bot exchange_flaky)
                         SpotPlaceOrder stamped_params "Long spot orders" 1 true w0
                         H1 H2))).
Defined.

(** X5. None of the three operations has a parameter named [timestamp]: a
    dict with that key, the only kind of dict that [retry_wrapper] ever
    modifies, binds to none of them, before and after the reset, and the
    evaluation raises [TypeError] without sending a request. *)
Theorem X5_timestamp_key_is_rejected
    (self : BinanceArbBot) (op : Operation) (params : dict) (w w1 : World) :
  is_Some (params !! "timestamp") ->
  binds op params = false
  /\ binds op (reset_timestamp params w) = false
  /\ operation_kw self op (reset_timestamp params w) w1 = (Exc TypeError, w1, []).
Proof.
  intros Hs. pose proof (timestamp_unbound op params Hs) as Hb.
  split; [exact Hb|]. split; [by apply unbound_reset|].
  apply unbound_raises. by apply unbound_reset.
Qed.

Lemma X5_witness :
  is_Some (stamped_params !! "timestamp")
  /\ binds FuturePlaceOrder stamped_params = false.
Proof.
  assert (H : is_Some (stamped_params !! "timestamp")) by (vm_compute; eauto).
  split; [exact H|].
  exact (proj1 (X5_timestamp_key_is_rejected (demo_bot exchange_flaky) FuturePlaceOrder
                  stamped_params w0 w0 H)).
Defined.

(** ** Timestamps *)

Lemma py_int_of_Z (z : Z) : py_int (Qc_of_Z z) = z.
Proof. unfold py_int. simpl. apply Z.quot_1_r. Qed.

Lemma time_time_ms w : (time_time w * Qc_of_Z 1000)%Qc = Qc_of_Z (clock w).
Proof.
  apply Qc_is_canon. unfold time_time. simpl.
  rewrite !Qred_correct. unfold Qeq. simpl. lia.
Qed.

Lemma timestamp_ms_run w : timestamp_ms w = (Val (PInt (clock w)), w, []).
Proof. unfold timestamp_ms. by rewrite time_time_ms, py_int_of_Z. Qed.

Lemma py_int_time_time w : 0 <= clock w -> py_int (time_time w) = clock w / 1000.
Proof.
  intros H.
  assert (Hq : (0 <= clock w # 1000)%Q) by (unfold Qle; simpl; lia).
  rewrite py_int_floor.
  - unfold floorQc, time_time. simpl. rewrite Qred_correct. reflexivity.
  - unfold Qcle, time_time. simpl. exact (proj2 (Qred_le 0 (clock w # 1000)) Hq).
Qed.

(** X6. The two timestamps of the source have different resolutions.  On a
    dict that has a ["timestamp"] key, [retry_wrapper] writes
    [int(time.time()) * 1000]: the clock cut down to whole seconds, up to
    999 ms in the past; the operations stamp their request with
    [int(time.time() * 1000)], the clock itself in milliseconds. *)
Theorem X6_timestamp_resolution (params : dict) (w : World) (v : pyval) :
  0 <= clock w -> params !! "timestamp" = Some v ->
  reset_timestamp params w !! "timestamp"
    = Some (PInt (clock w - clock w mod 1000))
  /\ timestamp_ms w = (Val (PInt (clock w)), w, [])
  /\ 0 <= clock w mod 1000 < 1000.
Proof.
  intros Hc Hv. split; [|split].
  - unfold reset_timestamp. rewrite Hv, lookup_insert_eq.
    rewrite (py_int_time_time w Hc). do 2 f_equal.
    pose proof (Z.div_mod (clock w) 1000). lia.
  - apply timestamp_ms_run.
  - apply Z.mod_pos_bound. lia.
Qed.

Lemma X6_witness :
  0 <= clock w0 /\ stamped_params !! "timestamp" = Some (PInt 0)
  /\ reset_timestamp stamped_params w0 !! "timestamp"
     = Some (PInt (clock w0 - clock w0 mod 1000)).
Proof.
  assert (H1 : 0 <= clock w0) by (simpl; lia).
  assert (H2 : stamped_params !! "timestamp" = Some (PInt 0)) by reflexivity.
  split; [exact H1|]. split; [exact H2|].
  exact (proj1 (X6_timestamp_resolution stamped_params w0 (PInt 0) H1 H2)).
Defined.


Lemma stamps_none (evs : list Event) :
  Forall (fun e => is_request e = false) evs -> stamps evs = [].
Proof.
  induction 1 as [|e evs He _ IH]; [reflexivity|].
  unfold stamps in *. simpl. destruct e; try discriminate He; exact IH.
Qed.





(** ** What the sizes guarantee *)











(** ** A sizing that fails *)

Lemma bind_exc {A B} (m : Py A) (k : A -> Py B) w e w1 ev1 :
  m w = (Exc e, w1, ev1) -> (m ≫= k) w = (Exc e, w1, ev1).
Proof. unfold mbind, Py_bind, bind. intros ->. reflexivity. Qed.

Lemma Qc_eqb_true (x y : Qc) : Qc_eqb x y = true -> x = y.
Proof.
  unfold Qc_eqb. destruct (Qccompare x y) eqn:E; try discriminate.
  intros _. by apply Qceq_alt.
Qed.

Lemma Qcminus_eq_0 (x y : Qc) : (x - y)%Qc = 0%Qc -> y = x.
Proof.
  intros H. destruct (Qc_eq_dec y x) as [E|E]; [exact E|].
  by destruct (Qcminus_ne_0 x y E).
Qed.

(** The sizings read no clock, send nothing and log nothing, and they fail
    only on a missing multiplier or on a division by zero. *)
Lemma open_sizing_fails self b w e :
  result (open_sizing self b w) = Exc e ->
  open_sizing self b w = (Exc e, w, [])
  /\ (e = KeyError /\ multipler self !! coin self = None
      \/ e = ZeroDivisionError
         /\ (multipler self !! coin self = Some 0%Qc \/ b = 0%Qc
             \/ spot_fee_rate self = 1%Qc)).
Proof.
  unfold open_sizing, multipler_of, truediv, mbind, Py_bind, bind, ret, raise, result.
  destruct (multipler self !! coin self) as [m|] eqn:Em; simpl;
    [|intros [= <-]; split; [reflexivity | left; auto]].
  destruct (Qc_eqb m 0) eqn:E1; simpl.
  { apply Qc_eqb_true in E1 as ->. intros [= <-]. split; [reflexivity|]. right. auto. }
  destruct (Qc_eqb b 0) eqn:E2; simpl.
  { apply Qc_eqb_true in E2 as ->. intros [= <-]. split; [reflexivity|]. right. auto. }
  destruct (Qc_eqb (1 - spot_fee_rate self) 0) eqn:E3; simpl.
  { apply Qc_eqb_true, Qcminus_eq_0 in E3. intros [= <-].
    split; [reflexivity|]. right. auto. }
  discriminate.
Qed.

Lemma close_sizing_fails self b w e :
  result (close_sizing self b w) = Exc e ->
  close_sizing self b w = (Exc e, w, [])
  /\ (e = KeyError /\ multipler self !! coin self = None
      \/ e = ZeroDivisionError
         /\ (multipler self !! coin self = Some 0%Qc \/ b = 0%Qc)).
Proof.
  unfold close_sizing, multipler_of, truediv, mbind, Py_bind, bind, ret, raise, result.
  destruct (multipler self !! coin self) as [m|] eqn:Em; simpl;
    [|intros [= <-]; split; [reflexivity | left; auto]].
  destruct (Qc_eqb m 0) eqn:E1; simpl.
  { apply Qc_eqb_true in E1 as ->. intros [= <-]. split; [reflexivity|]. right. auto. }
  destruct (Qc_eqb b 0) eqn:E2; simpl.
  { apply Qc_eqb_true in E2 as ->. intros [= <-]. split; [reflexivity|]. right. auto. }
  discriminate.
Qed.

(** X10. A cycle whose sizing fails stops before it sends anything.  The
    sizing fails with [KeyError] when [multipler] has no entry for the coin
    and with [ZeroDivisionError] when the multiplier or the futures price is
    zero (or, on opening, when the spot fee rate is 1); the cycle then ends
    in that exception right after its first record: no request was sent, no
    order placed, and the world is as it was. *)
Theorem X10_sizing_failure_sends_nothing
    (self : BinanceArbBot) (num spot_price future_price : Qc) (n : Z) (w : World)
    (e : exn) :
  (result (open_sizing self future_price w) = Exc e ->
     open_cycle self spot_price future_price n w = (Exc e, w, [open_trigger_log])
     /\ (e = KeyError /\ multipler self !! coin self = None
         \/ e = ZeroDivisionError
            /\ (multipler self !! coin self = Some 0%Qc \/ future_price = 0%Qc
                \/ spot_fee_rate self = 1%Qc)))
  /\ (result (close_sizing self future_price w) = Exc e ->
      close_cycle self num spot_price future_price n w
        = (Exc e, w, [close_trigger_log])
      /\ (e = KeyError /\ multipler self !! coin self = None
          \/ e = ZeroDivisionError
             /\ (multipler self !! coin self = Some 0%Qc \/ future_price = 0%Qc))).
Proof.
  split; intros H.
  - destruct (open_sizing_fails self future_price w e H) as [Hrun Hwhy].
    split; [|exact Hwhy]. unfold open_cycle. step_refl.
    erewrite bind_exc by exact Hrun. reflexivity.
  - destruct (close_sizing_fails self future_price w e H) as [Hrun Hwhy].
    split; [|exact Hwhy]. unfold close_cycle. step_refl.
    erewrite bind_exc by exact Hrun. reflexivity.
Qed.

Lemma X10_witness :
  result (open_sizing (demo_bot exchange_open) 0%Qc w_open_cycle)
    = Exc ZeroDivisionError
  /\ open_cycle (demo_bot exchange_open) (Qc_of_Z 100) 0%Qc 0 w_open_cycle
     = (Exc ZeroDivisionError, w_open_cycle, [open_trigger_log]).
Proof.
  assert (H : result (open_sizing (demo_bot exchange_open) 0%Qc w_open_cycle)
              = Exc ZeroDivisionError) by (vm_compute; reflexivity).
  split; [exact H|].
  exact (proj1 (proj1 (X10_sizing_failure_sends_nothing (demo_bot exchange_open) 0%Qc
                         (Qc_of_Z 100) 0%Qc 0 w_open_cycle ZeroDivisionError) H)).
Defined.

(** ** The opening loop *)

Lemma opening_counts_app l1 l2 :
  opening_counts (l1 ++ l2) = opening_counts l1 ++ opening_counts l2.
Proof. apply omap_app. Qed.

Lemma opening_counts_quiet (evs : list Event) :
  Forall (fun e => opening_count e = None) evs -> opening_counts evs = [].
Proof.
  induction 1 as [|e evs He _ IH]; [reflexivity|].
  unfold opening_counts in *. simpl. by rewrite He.
Qed.

Lemma unopened_retry_operation self op params act :
  quiet (fun e => opening_count e = None)
    (retry_call self (operation_kw self op) params act).
Proof.
  apply (quiet_retry_call (fun _ => True)); auto.
  intros p _. apply quiet_operation; reflexivity.
Qed.

Ltac unopened self :=
  first [ apply (unopened_retry_operation self SpotPlaceOrder)
        | apply (unopened_retry_operation self FuturePlaceOrder)
        | apply (unopened_retry_operation self AccountTransfer)
        | quiet_pure | apply quiet_ret | apply quiet_raise
        | apply quiet_emit; reflexivity
        | apply quiet_sleep; reflexivity
        | apply quiet_gateway; intros ?; reflexivity ].

Ltac drop_unopened self :=
  repeat match goal with
         | |- context [opening_counts (events (?m ?w))] =>
             rewrite (opening_counts_quiet (events (m w))) by unopened self
         end.

(** A completed opening cycle has added one to the counter and reported
    the new count once. *)
Lemma open_cycle_counts self a b k w k' :
  result (open_cycle self a b k w) = Val k' ->
  k' = k + 1 /\ opening_counts (events (open_cycle self a b k w)) = [k + 1].
Proof.
  intros H. unfold open_cycle in *.
  invert_bind H u1 H1.
  invert_bind H sz Hsz. destruct sz as [[[cn ce] fee] sq]. cbv beta iota in H |- *.
  invert_bind H u2 H2.
  invert_bind H si Hsi.
  invert_bind H fi Hfi.
  invert_bind H u3 H3.
  invert_bind H bal Hbal.
  invert_bind H num Hnum.
  invert_bind H u4 H4.
  invert_bind H tr Htr.
  invert_bind H u5 H5.
  invert_bind H av Hav.
  invert_bind H u6 H6.
  invert_bind H u7 H7.
  injection H as <-. split; [reflexivity|].
  rewrite !opening_counts_app. drop_unopened self. reflexivity.
Qed.

Lemma open_iteration_opened self k w : opened k (open_iteration self k w).
Proof.
  intros k' H. unfold open_iteration in *.
  invert_bind H t1 Ht1. invert_bind H a Ha.
  invert_bind H t2 Ht2. invert_bind H b Hb.
  invert_bind H q Hq. invert_bind H u1 H1.
  invert_bind H n Hn. invert_bind H u2 H2.
  injection H as <-.
  rewrite !opening_counts_app. drop_unopened self. simpl.
  destruct (Qc_ltb _ _).
  - left. invert_bind Hn u3 H3. injection Hn as <-. split; reflexivity.
  - right. destruct (open_cycle_counts self _ _ _ _ _ Hn) as [-> ->].
    split; reflexivity.
Qed.

(** The opening loop entered with a count below the maximum: when it
    returns, it has reported every count from the next one up to the
    maximum, and its last event is the record of the maximum. *)
Lemma open_position_loop_counts self : forall fuel k w,
  k < num_maximum self ->
  result (open_position_loop self fuel k w) = Val tt ->
  opening_counts (events (open_position_loop self fuel k w))
    = seqZ (k + 1) (num_maximum self - k)
  /\ exists pre, events (open_position_loop self fuel k w) = pre ++ [open_stop_log].
Proof.
  induction fuel as [|fuel IH]; intros k w Hk H; [discriminate H|].
  cbn [open_position_loop] in *.
  invert_bind H k' Hit.
  rewrite opening_counts_app.
  destruct (open_iteration_opened self k w k' Hit) as [[-> ->]|[-> ->]].
  - destruct (num_maximum self <=? k) eqn:E; [apply Z.leb_le in E; lia|].
    destruct (IH k _ Hk H) as [-> [pre ->]].
    split; [reflexivity|]. exists (events (open_iteration self k w) ++ pre).
    by rewrite app_assoc.
  - destruct (num_maximum self <=? k + 1) eqn:E.
    + apply Z.leb_le in E. replace (num_maximum self - k) with 1 by lia.
      split; [reflexivity|]. by exists (events (open_iteration self k w)).
    + apply Z.leb_gt in E. destruct (IH (k + 1) _ E H) as [-> [pre ->]].
      split.
      * rewrite (seqZ_cons (k + 1) (num_maximum self - k)) by lia.
        simpl. do 2 f_equal; lia.
      * exists (events (open_iteration self k w) ++ pre). by rewrite app_assoc.
Qed.

(** X11. An opening phase that returns has run to its maximum.  With a
    positive [num_maximum], when [open_position] returns it has completed
    exactly [num_maximum] cycles: the counts it reported are
    [1, 2, ..., num_maximum], each once and in this order, and the last
    event of the run is the record that the maximum is reached. *)
Theorem X11_open_position_runs_to_maximum
    (self : BinanceArbBot) (fuel : nat) (w : World) :
  0 < num_maximum self ->
  result (open_position self fuel w) = Val tt ->
  opening_counts (events (open_position self fuel w)) = seqZ 1 (num_maximum self)
  /\ exists pre, events (open_position self fuel w) = pre ++ [open_stop_log].
Proof.
  intros Hmax H. unfold open_position in *.
  destruct (open_position_loop_counts self fuel 0 w Hmax H) as [Hc Hlast].
  split; [|exact Hlast]. rewrite Hc. f_equal. lia.
Qed.

Lemma X11_witness :
  0 < num_maximum (demo_bot exchange_open)
  /\ result (open_position (demo_bot exchange_open) 1 w0) = Val tt
  /\ opening_counts (events (open_position (demo_bot exchange_open) 1 w0)) = [1].
Proof.
  assert (H1 : 0 < num_maximum (demo_bot exchange_open)) by (simpl; lia).
  assert (H2 : result (open_position (demo_bot exchange_open) 1 w0) = Val tt)
    by (vm_compute; reflexivity).
  split; [exact H1|]. split; [exact H2|].
  exact (proj1 (X11_open_position_runs_to_maximum (demo_bot exchange_open) 1 w0 H1 H2)).
Defined.

(** X12. The maximum is checked after the pass, not before it.  With
    [num_maximum <= 0] the opening phase still runs one full pass of its
    loop, which places the orders of a cycle when the quotes are above the
    threshold, and stops only after it. *)
Theorem X12_one_pass_whatever_the_maximum
    (self : BinanceArbBot) (fuel : nat) (w : World) :
  num_maximum self <= 0 ->
  open_position self (S fuel) w
  = (open_iteration self 0 ≫= fun _ =>
       log Info "Maximum execution number reached >>> Position opening stops." []) w.
Proof.
  intros Hmax. unfold open_position. cbn [open_position_loop].
  pose proof (open_iteration_opened self 0 w) as Hop. unfold opened, result in Hop.
  unfold mbind, Py_bind, bind.
  destruct (open_iteration self 0 w) as [[[k'| |] w1] ev1]; try reflexivity.
  assert (E : (num_maximum self <=? k') = true).
  { apply Z.leb_le. destruct (Hop k' eq_refl) as [[-> _]|[-> _]]; lia. }
  by rewrite E.
Qed.

Lemma X12_witness :
  num_maximum (with_num_maximum 0 (demo_bot exchange_open)) <= 0
  /\ steps (events (open_position (with_num_maximum 0 (demo_bot exchange_open)) 1 w0))
     = [Quote; Quote; SpotLeg; FutureLeg; Slept 2; Balance;
        Transferred (PFloat (Qc_of_Z 3)); Slept 2].
Proof.
  assert (H : num_maximum (with_num_maximum 0 (demo_bot exchange_open)) <= 0)
    by (simpl; lia).
  split; [exact H|].
  rewrite (X12_one_pass_whatever_the_maximum
             (with_num_maximum 0 (demo_bot exchange_open)) 0 w0 H).
  vm_compute. reflexivity.
Defined.

(** ** Exits of the opening phase *)

Lemma exits_open_cycle self spot_ask1 coin_bid1 n w :
  exits_at_terminal (open_cycle self spot_ask1 coin_bid1 n w).
Proof.
  unfold open_cycle.
  exits_step self. exits_step self.
  match goal with a : (Z * Qc * Qc * Qc)%type |- _ => destruct a as [[[cn ce] fee] sq] end.
  repeat exits_step self. apply exits_quiet. calm_leaf.
Qed.

Lemma exits_open_iteration self n w :
  exits_at_terminal (open_iteration self n w).
Proof.
  unfold open_iteration. do 6 exits_step self.
  apply exits_bind.
  - destruct (Qc_ltb _ _); [|apply exits_open_cycle].
    apply exits_quiet. apply quiet_bind; [calm_leaf | intros _; calm_leaf].
  - intros n' w'. repeat exits_step self. apply exits_quiet. calm_leaf.
Qed.

Lemma exits_open_position_loop self : forall fuel n w,
  exits_at_terminal (open_position_loop self fuel n w).
Proof.
  induction fuel as [|fuel IH]; intros n w; simpl.
  - left. constructor.
  - apply exits_bind; [apply exits_open_iteration|].
    intros n' w'. destruct (num_maximum self <=? n'); [|apply IH].
    left. repeat constructor.
Qed.

Lemma exits_at_terminal_found {A} (x : Res A * World * list Event) :
  exits_at_terminal x -> existsb is_terminal (events x) = true ->
  result x = Exc SystemExit
  /\ exists pre t, events x = pre ++ [t] /\ is_terminal t = true
                   /\ Forall (fun e => is_terminal e = false) pre.
Proof.
  intros [Hq | (pre & t & Hev & Hpre & Hres)] Hex.
  - exfalso. apply existsb_exists in Hex as (e & Hin & He).
    rewrite Forall_forall in Hq. apply list_elem_of_In in Hin.
    specialize (Hq e Hin). congruence.
  - split; [exact Hres|]. exists pre, t. split; [exact Hev|]. split; [|exact Hpre].
    rewrite Hev, existsb_app in Hex. apply orb_prop in Hex as [Hex|Hex].
    + exfalso. apply existsb_exists in Hex as (e & Hin & He).
      rewrite Forall_forall in Hpre. apply list_elem_of_In in Hin.
      specialize (Hpre e Hin). congruence.
    + simpl in Hex. by rewrite orb_false_r in Hex.
Qed.

(** X13. In every run of [open_position] the alert of an exhausted retry
    stops everything: when an alert is sent, it is the last event of the
    run, no other alert came before it, and the run ends in [SystemExit];
    in particular nothing is requested from the exchange after the
    alert. *)
Theorem X13_open_position_exits_at_alert
    (self : BinanceArbBot) (fuel : nat) (w : World) :
  existsb is_terminal (events (open_position self fuel w)) = true ->
  result (open_position self fuel w) = Exc SystemExit
  /\ exists pre t, events (open_position self fuel w) = pre ++ [t]
                   /\ is_terminal t = true
                   /\ Forall (fun e => is_terminal e = false) pre.
Proof. apply exits_at_terminal_found, exits_open_position_loop. Qed.

Lemma X13_witness :
  existsb is_terminal (events (open_position (demo_bot exchange_rejecting) 1 w0)) = true
  /\ result (open_position (demo_bot exchange_rejecting) 1 w0) = Exc SystemExit.
Proof.
  assert (H : existsb is_terminal
                (events (open_position (demo_bot exchange_rejecting) 1 w0)) = true)
    by (vm_compute; reflexivity).
  split; [exact H|].
  exact (proj1 (X13_open_position_exits_at_alert (demo_bot exchange_rejecting) 1 w0 H)).
Defined.

(** ** An opening phase without a supervisor *)

Lemma gateway_fails self req w e :
  exchange self (requests w) = Fails e ->
  gateway self req w = (Exc e, next_request w, [EvCall req (Fails e)]).
Proof. unfold gateway. intros ->. reflexivity. Qed.

(** X14. Nothing catches an exception in the opening phase.  Whatever
    exception ends a pass of the loop ends [open_position] with the same
    events; so does the failure of the first quote request, which is sent
    once and not retried, and a spot ask of zero, which raises
    [ZeroDivisionError] once both quotes are in and before anything is
    logged. *)
Theorem X14_open_position_has_no_supervisor
    (self : BinanceArbBot) (fuel : nat) (k : Z) (w : World) (e : exn) :
  (result (open_iteration self k w) = Exc e ->
     result (open_position_loop self (S fuel) k w) = Exc e
     /\ events (open_position_loop self (S fuel) k w)
        = events (open_iteration self k w))
  /\ (exchange self (requests w) = Fails e ->
      open_position_loop self (S fuel) k w
      = (Exc e, next_request w,
         [EvCall (publicGetTickerBookTicker (spot_symbol_type1 self)) (Fails e)]))
  /\ (forall b1 a2 b2,
        exchange self (requests w) = Answers (BookTicker 0%Qc b1) ->
        exchange self (S (requests w)) = Answers (BookTicker a2 b2) ->
        open_position_loop self (S fuel) k w
        = (Exc ZeroDivisionError, next_request (next_request w),
           [EvCall (publicGetTickerBookTicker (spot_symbol_type1 self))
              (Answers (BookTicker 0%Qc b1));
            EvCall (dapiPublicGetTickerBookTicker (future_symbol_type1 self))
              (Answers (BookTicker a2 b2))])).
Proof.
  split; [|split].
  - intros H. cbn [open_position_loop].
    rewrite result_bind, events_bind, H, app_nil_r. auto.
  - intros H. cbn [open_position_loop]. unfold open_iteration.
    erewrite bind_exc; [reflexivity|].
    erewrite bind_exc; [reflexivity|]. by apply gateway_fails.
  - intros b1 a2 b2 H1 H2. cbn [open_position_loop].
    erewrite bind_exc; [reflexivity|]. unfold open_iteration.
    step_with (gateway_answers self _ w _ H1). step_refl.
    step_with (gateway_answers self _ (next_request w) _ H2). step_refl.
    rewrite !prepend_prepend. reflexivity.
Qed.

Lemma X14_witness :
  exchange (demo_bot exchange_down) (requests w0) = Fails GatewayError
  /\ open_position_loop (demo_bot exchange_down) 1 0 w0
     = (Exc GatewayError, next_request w0,
        [EvCall (publicGetTickerBookTicker (spot_symbol_type1 (demo_bot exchange_down)))
           (Fails GatewayError)]).
Proof.
  assert (H : exchange (demo_bot exchange_down) (requests w0) = Fails GatewayError)
    by reflexivity.
  split; [exact H|].
  exact (proj1 (proj2 (X14_open_position_has_no_supervisor (demo_bot exchange_down)
                         0 0 w0 GatewayError)) H).
Defined.

(** ** A closing phase that never returns *)

Lemma close_loop_never_returns self num : forall fuel n w,
  result (close_loop self fuel num n w) <> Val tt.
Proof.
  induction fuel as [|fuel IH]; intros n w; simpl; [discriminate|].
  rewrite result_bind.
  destruct (result (close_iteration self num n w)) as [n'| |]; try discriminate.
  destruct (num_maximum self <=? n'); [discriminate | apply IH].
Qed.

Lemma close_position_utils_never_returns self fuel w :
  result (close_position_utils self fuel w) <> Val tt.
Proof.
  intros H. unfold close_position_utils in H.
  invert_result H b1 Hb1. invert_result H u Hu. invert_result H l1 Hl1.
  invert_result H b2 Hb2. invert_result H num Hnum. invert_result H l2 Hl2.
  invert_result H l3 Hl3. by apply close_loop_never_returns in H.
Qed.

Lemma try_except_escapes {A} (body : Py A) handler w e :
  (forall e' w', exists a w2 ev2, handler e' w' = (Val a, w2, ev2)) ->
  result (try_except body handler w) = Exc e -> is_Exception e = false.
Proof.
  intros Hh. unfold try_except, result.
  destruct (body w) as [[[a|e1|] w1] ev1]; simpl; try discriminate.
  destruct (is_Exception e1) eqn:E.
  - destruct (Hh e1 w1) as (a & w2 & ev2 & ->). discriminate.
  - by intros [= <-].
Qed.

(** X15. The closing phase never returns.  [close_position_utils] leaves
    its loop by [exit()] only, so it never returns a value; and its
    supervisor [close_position] neither returns nor lets an ordinary
    exception out: a run ends in an exception that is not an [Exception]
    (the exit of the process, an interrupt), or it goes on for ever. *)
Theorem X15_close_position_never_returns
    (self : BinanceArbBot) (rounds fuel : nat) (w : World) :
  result (close_position_utils self fuel w) <> Val tt
  /\ match result (close_position self rounds fuel w) with
     | Val _ => False
     | Exc e => is_Exception e = false
     | Diverge => True
     end.
Proof.
  split; [apply close_position_utils_never_returns|].
  revert w. induction rounds as [|rounds IH]; intros w; simpl; [exact I|].
  rewrite result_bind.
  destruct (result (try_except _ _ w)) as [[]|e|] eqn:E; [apply IH | | exact I].
  apply try_except_escapes in E; [exact E|].
  intros e' w'. eexists _, _, _. reflexivity.
Qed.

(** ** Entry of the closing phase *)

Lemma free_of_val free asset x w :
  free !! asset = Some x -> free_of (BalanceInfo free) asset w = (Val x, w, []).
Proof. unfold free_of. intros ->. reflexivity. Qed.

(** X16. How the closing phase starts.  [close_position_utils] sends the
    same request [fetch_balance] twice; the free balance of the coin in the
    second answer is the [num] that the loop will transfer after every
    cycle; a balance below [amount] adds one error record and stops
    nothing: the loop is entered all the same, with its counter at zero. *)
Theorem X16_closing_entry
    (self : BinanceArbBot) (fuel : nat) (w : World)
    (free1 free2 : gmap string Qc) (usdt num : Qc) :
  exchange self (requests w) = Answers (BalanceInfo free1) ->
  free1 !! "USDT" = Some usdt ->
  exchange self (S (requests w)) = Answers (BalanceInfo free2) ->
  free2 !! coin self = Some num ->
  close_position_utils self fuel w
  = prepend
      ([EvCall fetch_balance (Answers (BalanceInfo free1));
        EvLog Info "Amount of USDT in spot account: {num}" [PFloat usdt];
        EvCall fetch_balance (Answers (BalanceInfo free2));
        EvLog Info "Amount of {self.coin} in coin-margin account: {num}" [PFloat num]]
       ++ (if Qc_ltb num (amount self)
           then [EvLog Error "Please ensure the coin-margin remaining balance is enough!" []]
           else []))
      (close_loop self fuel num 0 (next_request (next_request w))).
Proof.
  intros H1 Hu H2 Hn. unfold close_position_utils.
  step_with (gateway_answers self _ w _ H1).
  step_with (free_of_val free1 _ usdt _ Hu). step_refl.
  step_with (gateway_answers self _ (next_request w) _ H2).
  step_with (free_of_val free2 _ num _ Hn). step_refl.
  destruct (Qc_ltb num (amount self)); step_refl;
    rewrite !prepend_prepend; reflexivity.
Qed.

Lemma X16_witness :
  exchange (demo_bot exchange_close) (requests w0)
    = Answers (BalanceInfo (<["BTC" := Qc_of_Z 5]> {["USDT" := Qc_of_Z 1000]}))
  /\ (<["BTC" := Qc_of_Z 5]> {["USDT" := Qc_of_Z 1000]} : gmap string Qc) !! "USDT"
     = Some (Qc_of_Z 1000)
  /\ exchange (demo_bot exchange_close) (S (requests w0))
     = Answers (BalanceInfo (<["BTC" := Qc_of_Z 5]> {["USDT" := Qc_of_Z 1000]}))
  /\ (<["BTC" := Qc_of_Z 5]> {["USDT" := Qc_of_Z 1000]} : gmap string Qc)
       !! coin (demo_bot exchange_close) = Some (Qc_of_Z 5)
  /\ exists evs,
       close_position_utils (demo_bot exchange_close) 1 w0
       = prepend evs
           (close_loop (demo_bot exchange_close) 1 (Qc_of_Z 5) 0
              (next_request (next_request w0))).
Proof.
  assert (H1 : exchange (demo_bot exchange_close) (requests w0)
               = Answers (BalanceInfo (<["BTC" := Qc_of_Z 5]> {["USDT" := Qc_of_Z 1000]})))
    by reflexivity.
  assert (H2 : (<["BTC" := Qc_of_Z 5]> {["USDT" := Qc_of_Z 1000]} : gmap string Qc)
                 !! "USDT" = Some (Qc_of_Z 1000)) by reflexivity.
  assert (H3 : exchange (demo_bot exchange_close) (S (requests w0))
               = Answers (BalanceInfo (<["BTC" := Qc_of_Z 5]> {["USDT" := Qc_of_Z 1000]})))
    by reflexivity.
  assert (H4 : (<["BTC" := Qc_of_Z 5]> {["USDT" := Qc_of_Z 1000]} : gmap string Qc)
                 !! coin (demo_bot exchange_close) = Some (Qc_of_Z 5)) by reflexivity.
  split; [exact H1|]. split; [exact H2|]. split; [exact H3|]. split; [exact H4|].
  eexists.
  exact (X16_closing_entry (demo_bot exchange_close) 1 w0 _ _ _ _ H1 H2 H3 H4).
Defined.

(** ** The requests of a cycle, field by field *)






(** ** The end of the closing loop *)

Lemma unstopped_retry_operation self op params act :
  quiet (fun e => is_close_stop e = false)
    (retry_call self (operation_kw self op) params act).
Proof.
  apply (quiet_retry_call (fun _ => True)); auto.
  intros p _. apply quiet_operation; reflexivity.
Qed.

Ltac unstopped_step self :=
  apply quiet_bind;
  [ first [ apply (unstopped_retry_operation self SpotPlaceOrder)
          | apply (unstopped_retry_operation self FuturePlaceOrder)
          | apply (unstopped_retry_operation self AccountTransfer)
          | quiet_pure | apply quiet_ret | apply quiet_raise
          | apply quiet_emit; reflexivity
          | apply quiet_sleep; reflexivity
          | apply quiet_gateway; intros ?; reflexivity ]
  | intros ? ].

Lemma unstopped_close_cycle self num spot_ask1 coin_bid1 n :
  quiet (fun e => is_close_stop e = false)
    (close_cycle self num spot_ask1 coin_bid1 n).
Proof.
  unfold close_cycle.
  unstopped_step self. unstopped_step self.
  match goal with a : (Z * Qc * Qc * Qc)%type |- _ => destruct a as [[[cn ce] fee] sq] end.
  repeat unstopped_step self. apply quiet_ret.
Qed.

Lemma unstopped_close_iteration self num n :
  quiet (fun e => is_close_stop e = false) (close_iteration self num n).
Proof.
  unfold close_iteration. do 6 unstopped_step self.
  apply quiet_bind.
  - destruct (Qc_ltb _ _); [|apply unstopped_close_cycle].
    apply quiet_bind; [apply quiet_emit; reflexivity | intros _; apply quiet_ret].
  - intros n'. repeat unstopped_step self. apply quiet_ret.
Qed.

Lemma existsb_none {A} (f : A -> bool) (l : list A) :
  Forall (fun x => f x = false) l -> existsb f l = false.
Proof. induction 1 as [|x l Hx _ IH]; [reflexivity|]. simpl. by rewrite Hx. Qed.

Lemma close_loop_stops self num : forall fuel k w,
  k < num_maximum self ->
  stops_at (num_maximum self) (events (close_loop self fuel num k w)).
Proof.
  unfold stops_at.
  induction fuel as [|fuel IH]; intros k w Hk; simpl; [discriminate|].
  rewrite events_bind, existsb_app, execution_counts_app.
  rewrite (existsb_none _ _ (unstopped_close_iteration self num k w)). simpl.
  pose proof (close_iteration_counted self num k w) as Hc. unfold counted in Hc.
  destruct (result (close_iteration self num k w)) as [k'| |]; try discriminate.
  destruct Hc as [Hk' ->].
  destruct (num_maximum self <=? k') eqn:E.
  - intros _. apply Z.leb_le in E. simpl. f_equal. lia.
  - apply Z.leb_gt in E. intros H. rewrite last_app, (IH k' _ E H). reflexivity.
Qed.

Lemma stops_bind_plain {A B} n (m : Py A) (kont : A -> Py B) w :
  quiet plain m -> (forall a w1, stops_at n (events (kont a w1))) ->
  stops_at n (events ((m ≫= kont) w)).
Proof.
  intros Hm Hk. unfold stops_at.
  rewrite events_bind, existsb_app, execution_counts_app.
  assert (H1 : existsb is_close_stop (events (m w)) = false).
  { apply existsb_none. eapply Forall_impl; [apply Hm|]. by intros e [? _]. }
  assert (H2 : execution_counts (events (m w)) = []).
  { apply execution_counts_quiet. eapply Forall_impl; [apply Hm|]. by intros e [_ ?]. }
  rewrite H1, H2. simpl.
  destruct (result (m w)); [apply Hk | discriminate | discriminate].
Qed.

(** X19. The closing loop stops exactly at its maximum.  With a positive
    [num_maximum], a run of [close_position_utils] that writes the record
    of the maximum has, as the last count it reported, [num_maximum]
    itself: the loop goes on while the count is below the maximum and
    leaves, by [exit()], at the first pass that reaches it. *)
Theorem X19_closing_stops_at_maximum
    (self : BinanceArbBot) (fuel : nat) (w : World) :
  0 < num_maximum self ->
  existsb is_close_stop (events (close_position_utils self fuel w)) = true ->
  last (execution_counts (events (close_position_utils self fuel w)))
  = Some (num_maximum self).
Proof.
  intros Hmax. change (stops_at (num_maximum self)
                         (events (close_position_utils self fuel w))).
  unfold close_position_utils.
  do 6 (apply stops_bind_plain;
        [first [ quiet_pure | apply quiet_emit; split; reflexivity
               | apply quiet_gateway; intros ?; split; reflexivity ]
        | intros ? ?]).
  apply stops_bind_plain.
  - destruct (Qc_ltb _ _); [apply quiet_emit; split; reflexivity | apply quiet_ret].
  - intros _ w'. by apply close_loop_stops.
Qed.

Lemma X19_witness :
  0 < num_maximum (demo_bot exchange_close)
  /\ existsb is_close_stop
       (events (close_position_utils (demo_bot exchange_close) 1 w0)) = true
  /\ last (execution_counts (events (close_position_utils (demo_bot exchange_close) 1 w0)))
     = Some 1.
Proof.
  assert (H1 : 0 < num_maximum (demo_bot exchange_close)) by (simpl; lia).
  assert (H2 : existsb is_close_stop
                 (events (close_position_utils (demo_bot exchange_close) 1 w0)) = true)
    by (vm_compute; reflexivity).
  split; [exact H1|]. split; [exact H2|].
  exact (X19_closing_stops_at_maximum (demo_bot exchange_close) 1 w0 H1 H2).
Defined.

(** ** The amount transferred, in general *)

(** X20. A completed opening cycle transfers a freshly read balance: both
    orders are placed first, then comes the settlement sleep of 2 seconds,
    then the balance is fetched; after that no order and no balance request
    is sent, and every transfer requested carries the free balance of the
    coin that was just read. *)
Theorem X20_opening_transfers_fresh_balance
    (self : BinanceArbBot) (spot_ask1 coin_bid1 : Qc) (n n' : Z) (w : World) :
  result (open_cycle self spot_ask1 coin_bid1 n w) = Val n' ->
  transfers_fresh_balance (coin self) (events (open_cycle self spot_ask1 coin_bid1 n w)).
Proof. apply open_cycle_fresh_balance. Qed.

Lemma X20_witness :
  result (open_cycle (demo_bot exchange_open) (Qc_of_Z 100) (Qc_of_Z 101) 0 w_open_cycle)
    = Val 1
  /\ transfers_fresh_balance (coin (demo_bot exchange_open))
       (events (open_cycle (demo_bot exchange_open) (Qc_of_Z 100) (Qc_of_Z 101) 0
                  w_open_cycle)).
Proof.
  assert (H : result (open_cycle (demo_bot exchange_open) (Qc_of_Z 100) (Qc_of_Z 101) 0
                        w_open_cycle) = Val 1) by (vm_compute; reflexivity).
  split; [exact H|].
  exact (X20_opening_transfers_fresh_balance (demo_bot exchange_open) (Qc_of_Z 100)
           (Qc_of_Z 101) 0 1 w_open_cycle H).
Defined.

(** X21. No closing cycle reads a balance: whatever the exchange answers,
    a closing cycle sends no [fetch_balance] request, and every transfer it
    requests carries [num], the balance that [close_position_utils] read
    once, before its loop. *)
Theorem X21_closing_transfers_entry_balance
    (self : BinanceArbBot) (num spot_bid1 coin_ask1 : Qc) (n : Z) (w : World) :
  Forall (fun e => is_fetch_balance e = false /\ transfer_amount num e)
    (events (close_cycle self num spot_bid1 coin_ask1 n w)).
Proof. apply close_cycle_entry_balance. Qed.
